(** * A model of the [jQuery.valueview.valueview] widget (jquery.valueview.valueview.js)
    and of the base [jQuery.valueview.Expert] (its [destroy] method).

    The widget is modelled by explicit state passing: every field the
    code reads or writes on [this] is a field of [View], every method
    is a function [View -> View] (or a pair with its result), and every
    asynchronous callback is an event delivered later by the
    environment: the parse timer firing, and the settlement of a parser
    or formatter request held in [v_pending].  jQuery Deferreds that are
    already settled run their callbacks synchronously (jQuery 1.x/2.x).
    DOM details (CSS classes, jQuery events) are left out; the content of
    [this.element] is kept as [v_content]. *)

From Stdlib Require Import String List Bool Arith Lia.
Import ListNotations.

(** ** Data model *)

(** A [dataValues.DataValue] object: an object identity (what [===]
    compares) and its serialisation [JSON.stringify(v.toJSON())]. *)
Record DataValue := mkDataValue { dv_oid : nat; dv_json : string }.

(** [a === b] on objects. *)
Definition dv_same (a b : DataValue) : bool := Nat.eqb (dv_oid a) (dv_oid b).

(** [JSON.stringify( a.toJSON() ) === JSON.stringify( b.toJSON() )]. *)
Definition dv_json_eq (a b : DataValue) : bool := String.eqb (dv_json a) (dv_json b).

(** Arguments a caller can pass to [value( x )]. *)
Inductive JsVal :=
| JsUndefined
| JsNull
| JsDataValue (d : DataValue)
| JsOther (what : string).

Definition js_of_value (v : option DataValue) : JsVal :=
  match v with None => JsNull | Some d => JsDataValue d end.

(** What [expert.rawValue()] returns: a string, [null], or already a
    [DataValue] (rich editing surfaces). *)
Inductive RawValue :=
| RawNull
| RawDataValue (d : DataValue)
| RawString (s : string).

(** The object returned by [valueCharacteristics()]. *)
Definition Chars := list (string * string).

Fixpoint chars_get (c : Chars) (k : string) : option string :=
  match c with
  | [] => None
  | (k', v) :: c' => if String.eqb k k' then Some v else chars_get c' k
  end.

Definition ostr_eqb (a b : option string) : bool :=
  match a, b with
  | Some x, Some y => String.eqb x y
  | None, None => true
  | _, _ => false
  end.

(** The two [for( i in ... )] loops of the [change] notifier:
    [newValueCharacteristics[i] !== lastValueCharacteristics[i]] for a key
    [i] of either object. *)
Definition chars_differ (nw last : Chars) : bool :=
  existsb (fun k => negb (ostr_eqb (chars_get nw k) (chars_get last k)))
          (map fst nw ++ map fst last).

(** The valueview's view of its current [Expert]: the constructor it was
    built with, its raw value and value characteristics, and its preview
    widget if it has one (with the messages passed to [preview.update]). *)
Record Expert := mkExpert {
  ex_ctor : nat;
  ex_raw : RawValue;
  ex_chars : Chars;
  ex_preview : option (list string)
}.

(** Content of [this.element]: static markup ([element.html( x )]), the
    [$value] node that is the expert's viewport, or nothing once [$value]
    has been detached. *)
Inductive Content :=
| ContentHtml (h : option string)
| ContentValueNode
| ContentEmpty.

(** Parser and formatter requests in flight, with the data the callbacks
    close over. *)
Inductive Request :=
| ReqParse (raw : string)             (* valueParser.parse( rawValue ) in _parseValue *)
| ReqFormat (d : DataValue)           (* _formatValue( this._value ) in _setValue *)
| ReqFormatUpdate (d : DataValue)     (* _formatValue( parsedValue ) in _updateValue *)
| ReqTextValue (d : DataValue).       (* format 'text/plain' in _updateTextValue, then drawContent *)

(** The pending [setTimeout] of [_parseValue]: when it is due and the raw
    value its closure captured. *)
Record Timer := mkTimer { tm_due : nat; tm_raw : string }.

Record View := mkView {
  v_value : option DataValue;          (* _value *)
  v_formatted : option string;         (* _formattedValue *)
  v_text : option string;              (* _textValue; None = undefined *)
  v_edit : bool;                       (* _isInEditMode *)
  v_initial : option DataValue;        (* _initialValue *)
  v_disabled : bool;                   (* options.disabled *)
  v_ctor : nat;                        (* _expertConstructor *)
  v_expert : option Expert;            (* _expert *)
  v_lastUpdate : option string;        (* __lastUpdateValue; None = undefined *)
  v_lastChars : option Chars;          (* __lastValueCharacteristics *)
  v_timer : option Timer;              (* _parseTimer, while it has not fired *)
  v_parseDelay : nat;                  (* options.parseDelay *)
  v_now : nat;                         (* the clock, in milliseconds *)
  v_content : Content;                 (* this.element's content *)
  v_pending : list (nat * Request);    (* requests in flight, by id *)
  v_next : nat;                        (* next request id *)
  v_dispatched : list string           (* raw values handed to valueParser.parse *)
}.

(** Field updates. *)
Definition with_value (x : option DataValue) (s : View) : View :=
  mkView x (v_formatted s) (v_text s) (v_edit s) (v_initial s) (v_disabled s) (v_ctor s) (v_expert s) (v_lastUpdate s) (v_lastChars s) (v_timer s) (v_parseDelay s) (v_now s) (v_content s) (v_pending s) (v_next s) (v_dispatched s).
Definition with_formatted (x : option string) (s : View) : View :=
  mkView (v_value s) x (v_text s) (v_edit s) (v_initial s) (v_disabled s) (v_ctor s) (v_expert s) (v_lastUpdate s) (v_lastChars s) (v_timer s) (v_parseDelay s) (v_now s) (v_content s) (v_pending s) (v_next s) (v_dispatched s).
Definition with_text (x : option string) (s : View) : View :=
  mkView (v_value s) (v_formatted s) x (v_edit s) (v_initial s) (v_disabled s) (v_ctor s) (v_expert s) (v_lastUpdate s) (v_lastChars s) (v_timer s) (v_parseDelay s) (v_now s) (v_content s) (v_pending s) (v_next s) (v_dispatched s).
Definition with_edit (x : bool) (s : View) : View :=
  mkView (v_value s) (v_formatted s) (v_text s) x (v_initial s) (v_disabled s) (v_ctor s) (v_expert s) (v_lastUpdate s) (v_lastChars s) (v_timer s) (v_parseDelay s) (v_now s) (v_content s) (v_pending s) (v_next s) (v_dispatched s).
Definition with_initial (x : option DataValue) (s : View) : View :=
  mkView (v_value s) (v_formatted s) (v_text s) (v_edit s) x (v_disabled s) (v_ctor s) (v_expert s) (v_lastUpdate s) (v_lastChars s) (v_timer s) (v_parseDelay s) (v_now s) (v_content s) (v_pending s) (v_next s) (v_dispatched s).
Definition with_disabled (x : bool) (s : View) : View :=
  mkView (v_value s) (v_formatted s) (v_text s) (v_edit s) (v_initial s) x (v_ctor s) (v_expert s) (v_lastUpdate s) (v_lastChars s) (v_timer s) (v_parseDelay s) (v_now s) (v_content s) (v_pending s) (v_next s) (v_dispatched s).
Definition with_ctor (x : nat) (s : View) : View :=
  mkView (v_value s) (v_formatted s) (v_text s) (v_edit s) (v_initial s) (v_disabled s) x (v_expert s) (v_lastUpdate s) (v_lastChars s) (v_timer s) (v_parseDelay s) (v_now s) (v_content s) (v_pending s) (v_next s) (v_dispatched s).
Definition with_expert (x : option Expert) (s : View) : View :=
  mkView (v_value s) (v_formatted s) (v_text s) (v_edit s) (v_initial s) (v_disabled s) (v_ctor s) x (v_lastUpdate s) (v_lastChars s) (v_timer s) (v_parseDelay s) (v_now s) (v_content s) (v_pending s) (v_next s) (v_dispatched s).
Definition with_lastUpdate (x : option string) (s : View) : View :=
  mkView (v_value s) (v_formatted s) (v_text s) (v_edit s) (v_initial s) (v_disabled s) (v_ctor s) (v_expert s) x (v_lastChars s) (v_timer s) (v_parseDelay s) (v_now s) (v_content s) (v_pending s) (v_next s) (v_dispatched s).
Definition with_lastChars (x : option Chars) (s : View) : View :=
  mkView (v_value s) (v_formatted s) (v_text s) (v_edit s) (v_initial s) (v_disabled s) (v_ctor s) (v_expert s) (v_lastUpdate s) x (v_timer s) (v_parseDelay s) (v_now s) (v_content s) (v_pending s) (v_next s) (v_dispatched s).
Definition with_timer (x : option Timer) (s : View) : View :=
  mkView (v_value s) (v_formatted s) (v_text s) (v_edit s) (v_initial s) (v_disabled s) (v_ctor s) (v_expert s) (v_lastUpdate s) (v_lastChars s) x (v_parseDelay s) (v_now s) (v_content s) (v_pending s) (v_next s) (v_dispatched s).
Definition with_parseDelay (x : nat) (s : View) : View :=
  mkView (v_value s) (v_formatted s) (v_text s) (v_edit s) (v_initial s) (v_disabled s) (v_ctor s) (v_expert s) (v_lastUpdate s) (v_lastChars s) (v_timer s) x (v_now s) (v_content s) (v_pending s) (v_next s) (v_dispatched s).
Definition with_now (x : nat) (s : View) : View :=
  mkView (v_value s) (v_formatted s) (v_text s) (v_edit s) (v_initial s) (v_disabled s) (v_ctor s) (v_expert s) (v_lastUpdate s) (v_lastChars s) (v_timer s) (v_parseDelay s) x (v_content s) (v_pending s) (v_next s) (v_dispatched s).
Definition with_content (x : Content) (s : View) : View :=
  mkView (v_value s) (v_formatted s) (v_text s) (v_edit s) (v_initial s) (v_disabled s) (v_ctor s) (v_expert s) (v_lastUpdate s) (v_lastChars s) (v_timer s) (v_parseDelay s) (v_now s) x (v_pending s) (v_next s) (v_dispatched s).
Definition with_pending (x : list (nat * Request)) (s : View) : View :=
  mkView (v_value s) (v_formatted s) (v_text s) (v_edit s) (v_initial s) (v_disabled s) (v_ctor s) (v_expert s) (v_lastUpdate s) (v_lastChars s) (v_timer s) (v_parseDelay s) (v_now s) (v_content s) x (v_next s) (v_dispatched s).
Definition with_next (x : nat) (s : View) : View :=
  mkView (v_value s) (v_formatted s) (v_text s) (v_edit s) (v_initial s) (v_disabled s) (v_ctor s) (v_expert s) (v_lastUpdate s) (v_lastChars s) (v_timer s) (v_parseDelay s) (v_now s) (v_content s) (v_pending s) x (v_dispatched s).
Definition with_dispatched (x : list string) (s : View) : View :=
  mkView (v_value s) (v_formatted s) (v_text s) (v_edit s) (v_initial s) (v_disabled s) (v_ctor s) (v_expert s) (v_lastUpdate s) (v_lastChars s) (v_timer s) (v_parseDelay s) (v_now s) (v_content s) (v_pending s) (v_next s) x.

Definition with_raw (r : RawValue) (c : Chars) (e : Expert) : Expert :=
  mkExpert (ex_ctor e) r c (ex_preview e).

Definition with_preview (log : list string) (e : Expert) : Expert :=
  mkExpert (ex_ctor e) (ex_raw e) (ex_chars e) (Some log).

(** The default of [options.parseDelay]. *)
Definition default_parseDelay : nat := 300.

(** ** The widget's methods *)

Section Valueview.

(** The expert store's choice of constructor for the current value
    ([_updateExpertConstructor] via [_determineDataValueType]), and the
    expert [new this._expertConstructor( ... )] followed by [init()]
    produces. *)
Variable ctor_of : option DataValue -> nat.
Variable new_expert : nat -> Expert.

(** [_updateExpertConstructor] *)
Definition updateExpertConstructor (s : View) : View :=
  with_ctor (ctor_of (v_value s)) s.

(** [_updateExpert]: keep a fully compatible expert, otherwise destroy
    the old one and create a new one. *)
Definition updateExpert (s : View) : View :=
  match v_expert s with
  | Some e =>
      if Nat.eqb (ex_ctor e) (v_ctor s) then s
      else with_expert (Some (new_expert (v_ctor s))) (with_expert None s)
  | None => with_expert (Some (new_expert (v_ctor s))) s
  end.

(** [_destroyExpert] *)
Definition destroyExpert (s : View) : View := with_expert None s.

(** Start a request; its settlement is a later event. *)
Definition add_pending (r : Request) (s : View) : View :=
  with_next (S (v_next s)) (with_pending (v_pending s ++ [(v_next s, r)]) s).

(** The callback [drawContent] hands to [_updateTextValue().then]. *)
Definition drawContent_then (s : View) : View :=
  if negb (v_edit s) then s     (* edit mode was left while formatting text value *)
  else updateExpert s.          (* then self._expert.draw() *)

(** [drawStaticContent] *)
Definition drawStaticContent (s : View) : View :=
  with_content (ContentHtml (v_formatted s)) s.

(** [drawContent], with [_updateTextValue] inlined. *)
Definition drawContent (s : View) : View :=
  if v_edit s then
    match v_value s with
    | None => drawContent_then (with_text (Some ""%string) s)
    | Some d => add_pending (ReqTextValue d) s
    end
  else drawStaticContent s.

(** [draw]: CSS classes, then [drawContent]. *)
Definition draw (s : View) : View := drawContent s.

(** [_setValue] (for an argument that passed the [instanceof] check). *)
Definition setValue (x : option DataValue) (s : View) : View :=
  let go :=
    let s1 := updateExpertConstructor (with_value x s) in
    match x with
    | None => draw (with_formatted None s1)
    | Some d => add_pending (ReqFormat d) s1
    end in
  match v_value s, x with
  | Some cur, Some w => if dv_json_eq w cur then s else go
  | _, _ => go
  end.

(** The outcome of a call: a returned value, or a thrown [Error] with
    the state as it was when the error was thrown. *)
Inductive Outcome :=
| Returned (ret : JsVal) (s : View)
| Thrown (msg : string) (s : View).

Definition outcome_state (o : Outcome) : View :=
  match o with Returned _ s => s | Thrown _ s => s end.

(** [value( x )] *)
Definition value (x : JsVal) (s : View) : Outcome :=
  match x with
  | JsUndefined => Returned (js_of_value (v_value s)) s
  | JsNull => Returned JsUndefined (setValue None s)
  | JsDataValue d => Returned JsUndefined (setValue (Some d) s)
  | JsOther _ =>
      Thrown "The given value has to be an instance of dataValues.DataValue or null"%string s
  end.

(** [initialValue()] *)
Definition initialValue (s : View) : option DataValue :=
  if negb (v_edit s) then v_value s else v_initial s.

(** [isEmpty()] *)
Definition isEmpty (s : View) : bool :=
  match v_value s with None => true | Some _ => false end.

(** [startEditing] *)
Definition startEditing (s : View) : View :=
  if v_edit s then s
  else
    let s1 := with_edit true (with_initial (v_value s) s) in
    let s2 := with_content ContentValueNode s1 in      (* this.element.html( this.$value ) *)
    draw s2.

(** [this.$value.detach()] *)
Definition detach_value_node (s : View) : View :=
  match v_content s with
  | ContentValueNode => with_content ContentEmpty s
  | _ => s
  end.

(** [stopEditing( dropValue )]; [this.value( this.initialValue() )] is
    called with a [DataValue] or [null], so it never throws. *)
Definition stopEditing (dropValue : bool) (s : View) : View :=
  if negb (v_edit s) then s
  else
    let s1 := if dropValue then outcome_state (value (js_of_value (initialValue s)) s) else s in
    let s2 := with_lastChars None (with_edit false (with_initial None s1)) in
    let s3 := match v_expert s2 with Some _ => destroyExpert s2 | None => s2 end in
    draw (detach_value_node s3).

(** [cancelEditing] *)
Definition cancelEditing (s : View) : View := stopEditing true s.

(** [_setDisabled] *)
Definition setDisabled (b : bool) (s : View) : View :=
  if Bool.eqb (v_disabled s) b then s else draw (with_disabled b s).

(** [_renderError( message )] *)
Definition renderError (message : string) (s : View) : View :=
  match v_expert s with
  | Some e =>
      match ex_preview e with
      | Some log => with_expert (Some (with_preview (log ++ [message]) e)) s
      | None => s
      end
  | None => s
  end.

(** The state of the promise [_parseValue] returns, when it returns. *)
Inductive Promise :=
| Resolved (r : option DataValue)
| Pending.

(** [_parseValue].  It is only called by [_updateValue], which the
    notifier only reaches with an expert. *)
Definition parseValue (s : View) : View * Promise :=
  match v_expert s with
  | None => (s, Pending)
  | Some expert =>
      match ex_raw expert with
      | RawNull => (with_lastUpdate None s, Resolved None)
      | RawDataValue d => (with_lastUpdate None s, Resolved (Some d))
      | RawString rawValue =>
          let s1 := with_timer None s in                          (* clearTimeout *)
          let s2 := with_lastUpdate (Some rawValue) s1 in
          (with_timer (Some (mkTimer (v_now s2 + v_parseDelay s2) rawValue)) s2, Pending)
      end
  end.

(** The [done] callback of [_updateValue]. *)
Definition updateValue_done (parsedValue : option DataValue) (s : View) : View :=
  let s1 := with_value parsedValue s in
  match parsedValue with
  | None => drawContent (with_formatted None s1)
  | Some d => add_pending (ReqFormatUpdate d) s1
  end.

(** [if( message )] on a failure message: [undefined] ([None]) and the
    empty string are falsy. *)
Definition message_of (message : option string) : option string :=
  match message with
  | Some m => if String.eqb m "" then None else Some m
  | None => None
  end.

(** The [fail] callback of [_updateValue]. *)
Definition updateValue_fail (message : option string) (s : View) : View :=
  match message_of message with
  | Some m => renderError m (with_value None s)
  | None => s
  end.

(** [_updateValue] *)
Definition updateValue (s : View) : View :=
  let '(s1, p) := parseValue s in
  match p with
  | Resolved r => updateValue_done r s1
  | Pending => s1
  end.

(** [getTextValue() !== expert.rawValue()] *)
Definition text_differs (t : option string) (r : RawValue) : bool :=
  match t, r with
  | Some x, RawString y => negb (String.eqb x y)
  | _, _ => true
  end.

(** The [change] callback of [viewNotifier()]. *)
Definition notifyChange (s : View) : View :=
  match v_expert s with
  | None => s
  | Some e =>
      let last := match v_lastChars s with Some c => c | None => [] end in
      let changeDetected :=
        chars_differ (ex_chars e) last || text_differs (v_text s) (ex_raw e) in
      if changeDetected then updateValue (with_lastChars (Some (ex_chars e)) s)
      else s
  end.

(** The user edits the expert's input: its raw value and characteristics
    change and it notifies the view. *)
Definition userInput (r : RawValue) (c : Chars) (s : View) : View :=
  match v_expert s with
  | None => s
  | Some e => notifyChange (with_expert (Some (with_raw r c e)) s)
  end.

(** The [setTimeout] callback of [_parseValue]. *)
Definition fireParseTimer (t : Timer) (s : View) : View :=
  add_pending (ReqParse (tm_raw t)) (with_dispatched (v_dispatched s ++ [tm_raw t]) s).

(** [d] milliseconds pass; the parse timer fires when it is due. *)
Definition tick (d : nat) (s : View) : View :=
  let s1 := with_now (v_now s + d) s in
  match v_timer s1 with
  | Some t => if tm_due t <=? v_now s1 then fireParseTimer t (with_timer None s1) else s1
  | None => s1
  end.

(** Remove the request with id [k] from the requests in flight. *)
Fixpoint find_request (k : nat) (l : list (nat * Request)) : option Request :=
  match l with
  | [] => None
  | (k', r) :: l' => if Nat.eqb k k' then Some r else find_request k l'
  end.

Definition take_request (k : nat) (s : View) : option (Request * View) :=
  match find_request k (v_pending s) with
  | Some r => Some (r, with_pending (filter (fun p => negb (Nat.eqb (fst p) k)) (v_pending s)) s)
  | None => None
  end.

(** The parser request [k] resolves with [parsedValue]: the [done]
    callback in [_parseValue], then [_updateValue]'s callbacks. *)
Definition parseDone (k : nat) (parsedValue : option DataValue) (s : View) : View :=
  match take_request k s with
  | Some (ReqParse rawValue, s1) =>
      match v_lastUpdate s1 with
      | Some last =>
          if String.eqb last rawValue
          then updateValue_done parsedValue (with_lastUpdate None s1)
          else s1   (* deferred.reject(): late response, ignored by _updateValue *)
      | None => s1
      end
  | _ => s
  end.

(** The parser request [k] fails with [message] ([undefined] = [None]). *)
Definition parseFail (k : nat) (message : option string) (s : View) : View :=
  match take_request k s with
  | Some (ReqParse _, s1) => updateValue_fail message s1
  | _ => s
  end.

(** A formatter request [k] resolves with [( formattedValue,
    formattedDataValue )]. *)
Definition formatDone (k : nat) (formattedValue : string) (formattedDataValue : DataValue)
    (s : View) : View :=
  match take_request k s with
  | Some (ReqFormat d, s1) =>
      if dv_same d formattedDataValue then draw (with_formatted (Some formattedValue) s1) else s1
  | Some (ReqFormatUpdate d, s1) =>
      if dv_same d formattedDataValue then drawContent (with_formatted (Some formattedValue) s1)
      else s1
  | Some (ReqTextValue d, s1) =>
      if dv_same d formattedDataValue then drawContent_then (with_text (Some formattedValue) s1)
      else s1
  | _ => s
  end.

(** A formatter request [k] fails with [message]. *)
Definition formatFail (k : nat) (message : option string) (s : View) : View :=
  match take_request k s with
  | Some (ReqFormat _, s1) =>
      match message_of message with Some m => renderError m s1 | None => s1 end
  | Some (ReqFormatUpdate _, s1) =>
      match message_of message with Some m => renderError m (with_formatted None s1) | None => s1 end
  | Some (ReqTextValue _, s1) => s1     (* .then has no failure callback *)
  | _ => s
  end.

(** Everything that can happen to a widget. *)
Inductive Event :=
| EvStartEditing
| EvStopEditing (dropValue : bool)
| EvCancelEditing
| EvDraw
| EvSetDisabled (b : bool)
| EvValue (x : JsVal)
| EvInput (r : RawValue) (c : Chars)
| EvTick (d : nat)
| EvParseDone (k : nat) (r : option DataValue)
| EvParseFail (k : nat) (message : option string)
| EvFormatDone (k : nat) (formattedValue : string) (formattedDataValue : DataValue)
| EvFormatFail (k : nat) (message : option string).

Definition step (ev : Event) (s : View) : View :=
  match ev with
  | EvStartEditing => startEditing s
  | EvStopEditing b => stopEditing b s
  | EvCancelEditing => cancelEditing s
  | EvDraw => draw s
  | EvSetDisabled b => setDisabled b s
  | EvValue x => outcome_state (value x s)
  | EvInput r c => userInput r c s
  | EvTick d => tick d s
  | EvParseDone k r => parseDone k r s
  | EvParseFail k m => parseFail k m s
  | EvFormatDone k f d => formatDone k f d s
  | EvFormatFail k m => formatFail k m s
  end.

Definition run (evs : list Event) (s : View) : View := fold_left (fun s ev => step ev s) evs s.

(** The widget's fields before [_create], with [this.element] holding the
    markup [html] and the given [options.parseDelay]. *)
Definition blank (parseDelay : nat) (html : string) : View :=
  mkView None None None false None false 0 None None None None parseDelay 0
         (ContentHtml (Some html)) [] 0 [].

(** [_initValue( value )] *)
Definition initValue (x : option DataValue) (s : View) : View :=
  match v_content s with
  | ContentHtml (Some h) =>
      if String.eqb h "" then outcome_state (value (js_of_value x) s)
      else draw (updateExpertConstructor (with_formatted (Some h) (with_value x s)))
  | _ => outcome_state (value (js_of_value x) s)
  end.

(** [_create], for options [value], [autoStartEditing], [parseDelay]. *)
Definition create (parseDelay : nat) (html : string) (x : option DataValue)
    (autoStartEditing : bool) : View :=
  let s := initValue x (blank parseDelay html) in
  if autoStartEditing && isEmpty s then startEditing s else s.

Inductive reachable : View -> Prop :=
| reachable_create d h x a : reachable (create d h x a)
| reachable_step ev s : reachable s -> reachable (step ev s).

End Valueview.

Arguments reachable : clear implicits.

(** ** The base [jQuery.valueview.Expert] (its constructor, [addExtension]
    and [destroy]) *)
Module ExpertBase.

(** References are object handles; [None] is [null]. *)
Record Expert := mkExpert {
  viewPort : option nat;            (* $viewPort *)
  viewStateRef : option nat;        (* _viewState *)
  viewNotifier : option nat;        (* _viewNotifier *)
  messageProvider : option nat;     (* _messageProvider *)
  options : option nat;             (* _options *)
  extendable : list nat             (* the extensions held by _extendable *)
}.

(** Observable effects of a call. *)
Inductive Effect :=
| CallExtension (ext : nat) (hook : string)   (* _extendable.callExtensions( hook ) *)
| EmptyViewPort (node : nat).                 (* $viewPort.removeClass( ... ).empty() *)

(** [new Expert( viewPortNode, relatedViewState, valueViewNotifier, options )]
    for arguments that pass its checks: [$( viewPortNode )], the
    extended options object and the new message provider are objects. *)
Definition construct (node state notifier opts provider : nat) : Expert :=
  mkExpert (Some node) (Some state) (Some notifier) (Some provider) (Some opts) [].

(** [addExtension( extension )] *)
Definition addExtension (ext : nat) (e : Expert) : Expert :=
  mkExpert (viewPort e) (viewStateRef e) (viewNotifier e) (messageProvider e) (options e)
           (extendable e ++ [ext]).

(** [destroy()] *)
Definition destroy (e : Expert) : Expert * list Effect :=
  match viewPort e with
  | None => (e, [])                  (* destroyed already *)
  | Some vp =>
      (mkExpert None None None None None (extendable e),
       map (fun x => CallExtension x "destroy") (extendable e) ++ [EmptyViewPort vp])
  end.

Inductive reachable : Expert -> Prop :=
| reachable_construct n st nt o p : reachable (construct n st nt o p)
| reachable_addExtension x e : reachable e -> reachable (addExtension x e)
| reachable_destroy e : reachable e -> reachable (fst (destroy e)).

(** A sequence of calls on an expert, with the effects they have. *)
Inductive Op :=
| OpAddExtension (ext : nat)
| OpDestroy.

Fixpoint run_ops (ops : list Op) (e : Expert) : Expert * list Effect :=
  match ops with
  | [] => (e, [])
  | OpAddExtension x :: ops' => run_ops ops' (addExtension x e)
  | OpDestroy :: ops' =>
      let '(e1, fx1) := destroy e in
      let '(e2, fx2) := run_ops ops' e1 in
      (e2, fx1 ++ fx2)
  end.

Definition refs_null (e : Expert) : Prop :=
  viewPort e = None /\ viewStateRef e = None /\ viewNotifier e = None
  /\ messageProvider e = None /\ options e = None.

End ExpertBase.

(** ** Concrete collaborators and inputs *)

Definition demo_ctor (_ : option DataValue) : nat := 1.
Definition demo_expert (c : nat) : Expert := mkExpert c (RawString ""%string) [] (Some []).
Definition bare_expert (c : nat) : Expert := mkExpert c (RawString ""%string) [] None.
Definition dv_a : DataValue := mkDataValue 1 "string:a".
Definition dv_a' : DataValue := mkDataValue 2 "string:a".
Definition dv_b : DataValue := mkDataValue 3 "string:b".

(** A widget created empty with [autoStartEditing], hence in edit mode. *)
Definition demo_start : View := create demo_ctor demo_expert 300 "" None true.

(** Inputs "a", "ab", "a", each parsed after the delay. *)
Definition trace_a_ab_a : list Event :=
  [EvInput (RawString "a") []; EvTick 300; EvInput (RawString "ab") []; EvTick 300;
   EvInput (RawString "a") []; EvTick 300].

(** ** Specification predicates *)

(** The fields drawing and starting requests leave alone. *)
Definition draw_frame (s' s : View) : Prop :=
  v_value s' = v_value s /\ v_formatted s' = v_formatted s /\ v_edit s' = v_edit s
  /\ v_initial s' = v_initial s /\ v_timer s' = v_timer s /\ v_dispatched s' = v_dispatched s
  /\ v_lastUpdate s' = v_lastUpdate s /\ v_parseDelay s' = v_parseDelay s
  /\ v_now s' = v_now s /\ v_lastChars s' = v_lastChars s.

(** The displayed state: value, formatted value, text value, element
    content and expert (with its preview). *)
Definition displayed_same (s' s : View) : Prop :=
  v_value s' = v_value s /\ v_formatted s' = v_formatted s /\ v_text s' = v_text s
  /\ v_content s' = v_content s /\ v_expert s' = v_expert s.

(** [Some None] for a [null] raw value, [Some (Some d)] for a raw value
    that is already a [DataValue] [d], [None] for a string. *)
Definition structured_raw (r : RawValue) : option (option DataValue) :=
  match r with
  | RawNull => Some None
  | RawDataValue d => Some (Some d)
  | RawString _ => None
  end.

(** Every request in flight has an id below [v_next]. *)
Definition ids_fresh (s : View) : Prop := Forall (fun p => fst p < v_next s) (v_pending s).

(** The element holds [$value] exactly in edit mode, and static markup
    otherwise. *)
Definition surface_ok (s : View) : Prop :=
  (v_edit s = true /\ v_content s = ContentValueNode)
  \/ (v_edit s = false /\ exists h, v_content s = ContentHtml h).

Definition static_shown (s : View) : bool :=
  match v_content s with ContentHtml _ => true | _ => false end.

Definition editable_shown (s : View) : bool :=
  match v_content s with ContentValueNode => true | _ => false end.

(** Values equal under [JSON.stringify( v.toJSON() )], [null] only equal
    to [null]. *)
Definition same_json (a b : option DataValue) : Prop :=
  match a, b with
  | Some x, Some y => dv_json_eq x y = true
  | None, None => True
  | _, _ => False
  end.

(** Whether the [change] notifier counts the expert's new raw value [r]
    and characteristics [c] as a change. *)
Definition change_detected (r : RawValue) (c : Chars) (s : View) : bool :=
  match v_expert s with
  | None => false
  | Some _ =>
      let last := match v_lastChars s with Some l => l | None => [] end in
      chars_differ c last || text_differs (v_text s) r
  end.

Section Bursts.
Variable new_expert : nat -> Expert.

(** Typing: each entry is a raw string with its characteristics, then the
    milliseconds until the next entry. *)
Fixpoint burst (bs : list (string * Chars * nat)) (s : View) : View :=
  match bs with
  | [] => s
  | (r, c, d) :: bs' => burst bs' (tick d (userInput new_expert (RawString r) c s))
  end.

Fixpoint burst_detected (bs : list (string * Chars * nat)) (s : View) : bool :=
  match bs with
  | [] => true
  | (r, c, d) :: bs' =>
      change_detected (RawString r) c s
      && burst_detected bs' (tick d (userInput new_expert (RawString r) c s))
  end.

End Bursts.

(** The claims as first stated, where the code departs from them. *)

(** The claim C8 as first stated: every argument that is neither [null]
    nor a [DataValue] makes [value] throw. *)
Definition value_fails_fast (ctor_of : option DataValue -> nat) (new_expert : nat -> Expert) : Prop :=
  forall s x, x <> JsNull -> (forall d, x <> JsDataValue d) ->
    exists msg, value ctor_of new_expert x s = Thrown msg s.



(** The claim C3 as first stated, over every reachable state. *)
Definition start_cancel_restores (ctor_of : option DataValue -> nat) (new_expert : nat -> Expert)
    : Prop :=
  forall s, reachable ctor_of new_expert s ->
    same_json (v_value (cancelEditing ctor_of new_expert (startEditing new_expert s))) (v_value s).

(** The claim C2 as first stated, for two quick string changes: only the
    second can reach the parser. *)
Definition debounce_last_only (ctor_of : option DataValue -> nat) (new_expert : nat -> Expert)
    : Prop :=
  forall s r1 c1 d r2 c2,
    reachable ctor_of new_expert s -> v_timer s = None -> d < v_parseDelay s ->
    let s' := tick (v_parseDelay s)
                (userInput new_expert (RawString r2) c2
                   (tick d (userInput new_expert (RawString r1) c1 s))) in
    v_dispatched s' = v_dispatched s \/ v_dispatched s' = v_dispatched s ++ [r2].

(** ** More of the widget's API *)

Section Api.
Variable new_expert : nat -> Expert.

(** [expertProxy( fnName )], behind [focus] and [blur]: the expert the
    call is forwarded to, if any. *)
Definition expertProxy (s : View) : option Expert :=
  match v_expert s with
  | Some e => if v_edit s then Some e else None
  | None => None
  end.

(** [disable], [enable] and [isDisabled] *)
Definition disable (s : View) : View := setDisabled new_expert true s.
Definition enable (s : View) : View := setDisabled new_expert false s.
Definition isDisabled (s : View) : bool := v_disabled s.

End Api.

(** ** Invariant predicates *)

(** In static mode the widget holds no expert and no rollback value. *)
Definition static_clean (s : View) : Prop :=
  v_edit s = false -> v_expert s = None /\ v_initial s = None.

(** Request ids are below [v_next] and pairwise distinct. *)
Definition ids_ok (s : View) : Prop :=
  ids_fresh s /\ NoDup (map fst (v_pending s)).

(** [s'] has the rollback value and the dispatched raw values of [s]. *)
Definition keeps (s' s : View) : Prop :=
  v_initial s' = v_initial s /\ v_dispatched s' = v_dispatched s.

(** Concrete states: after inputs "a", "ab", "a" were each sent to the
    parser; a widget created in static mode with the value [dv_a]; the
    empty widget in edit mode after its expert produced [dv_a] itself. *)
Definition demo_abs : View := run demo_ctor demo_expert trace_a_ab_a demo_start.
Definition demo_static : View := create demo_ctor demo_expert 300 "" (Some dv_a) false.
Definition demo_dv_input : View :=
  run demo_ctor demo_expert [EvInput (RawDataValue dv_a) []] demo_start.
Definition demo_dv_expert : Expert := mkExpert 1 (RawDataValue dv_a) [] (Some []).
Definition demo_expert_obj : ExpertBase.Expert :=
  ExpertBase.addExtension 7 (ExpertBase.construct 1 2 3 4 5).

(** [demo_start] after typing "x". *)
Definition demo_typed : View :=
  run demo_ctor demo_expert [EvInput (RawString "x") []] demo_start.

(** [demo_static] edited (its text value arrives, the user types) and then
    left with [stopEditing()]. *)
Definition demo_left : View :=
  run demo_ctor demo_expert
      [EvStartEditing; EvFormatDone 1 "a" dv_a; EvInput (RawString "b") []; EvStopEditing false]
      demo_static.

(** * Proofs *)

Example demo_start_state :
  v_edit demo_start = true /\ v_content demo_start = ContentValueNode
  /\ v_text demo_start = Some ""%string /\ v_expert demo_start = Some (demo_expert 1).
Proof. vm_compute. auto. Qed.

Example trace_a_ab_a_state :
  let s := run demo_ctor demo_expert trace_a_ab_a demo_start in
  v_pending s = [(0, ReqParse "a"); (1, ReqParse "ab"); (2, ReqParse "a")]
  /\ v_lastUpdate s = Some "a"%string /\ v_dispatched s = ["a"; "ab"; "a"]%string.
Proof. vm_compute. auto. Qed.

(** ** Frame lemmas *)

Ltac case_matches :=
  repeat match goal with
  | |- context [match ?x with _ => _ end] =>
      lazymatch x with
      | context [match _ with _ => _ end] => fail
      | _ => let E := fresh "E" in destruct x eqn:E
      end
  end.

Section Frames.
Variable ctor_of : option DataValue -> nat.
Variable new_expert : nat -> Expert.

Lemma draw_frame_trans s1 s2 s3 : draw_frame s3 s2 -> draw_frame s2 s1 -> draw_frame s3 s1.
Proof. unfold draw_frame; intuition congruence. Qed.

Lemma add_pending_frame r s : draw_frame (add_pending r s) s.
Proof. unfold draw_frame; simpl; tauto. Qed.

Lemma updateExpert_frame s : draw_frame (updateExpert new_expert s) s.
Proof. unfold updateExpert, draw_frame; case_matches; simpl; tauto. Qed.

Lemma drawContent_then_frame s : draw_frame (drawContent_then new_expert s) s.
Proof.
  unfold drawContent_then; case_matches.
  - unfold draw_frame; tauto.
  - apply updateExpert_frame.
Qed.

Lemma drawContent_frame s : draw_frame (drawContent new_expert s) s.
Proof.
  unfold drawContent; case_matches.
  - apply add_pending_frame.
  - eapply draw_frame_trans; [apply drawContent_then_frame|].
    unfold draw_frame; simpl; tauto.
  - unfold drawStaticContent, draw_frame; simpl; tauto.
Qed.

Lemma draw_frame_draw s : draw_frame (draw new_expert s) s.
Proof. apply drawContent_frame. Qed.

End Frames.

(** ** Properties of the widget *)

Section Claims.
Variable ctor_of : option DataValue -> nat.
Variable new_expert : nat -> Expert.

(** Claim C6: when the expert's raw value is [null] or already a
    [DataValue], [_parseValue] returns a promise already resolved with it,
    leaves the parse timer alone and sends nothing to the parser, and
    [_updateValue] accepts the value synchronously. *)
Theorem parseValue_structured_raw_synchronous (s : View) (e : Expert) (r : option DataValue) :
  v_expert s = Some e -> structured_raw (ex_raw e) = Some r ->
  snd (parseValue s) = Resolved r
  /\ v_timer (fst (parseValue s)) = v_timer s
  /\ v_dispatched (fst (parseValue s)) = v_dispatched s
  /\ v_pending (fst (parseValue s)) = v_pending s
  /\ v_value (updateValue new_expert s) = r
  /\ v_timer (updateValue new_expert s) = v_timer s
  /\ v_dispatched (updateValue new_expert s) = v_dispatched s.
Proof.
  intros He Hr.
  unfold updateValue, parseValue; rewrite He.
  destruct (ex_raw e) as [|d|str]; simpl in Hr; inversion Hr; subst; simpl.
  - unfold updateValue_done.
    destruct (drawContent_frame new_expert (with_formatted None (with_value None (with_lastUpdate None s))))
      as (H1 & _ & _ & _ & H5 & H6 & _).
    rewrite H1, H5, H6; simpl; tauto.
  - unfold updateValue_done; simpl; tauto.
Qed.

(** Claim C9: setting a non-null value whose serialisation equals that of
    the current non-null value changes nothing at all: no field, no
    formatter request, no redraw, no new expert. *)
Theorem value_same_serialisation_noop (s : View) (v w : DataValue) :
  v_value s = Some v -> dv_json_eq w v = true ->
  value ctor_of new_expert (JsDataValue w) s = Returned JsUndefined s.
Proof.
  intros Hv Hj. unfold value, setValue. rewrite Hv, Hj. reflexivity.
Qed.

(** Claim C8 (as corrected): [value( x )] for an [x] that is not
    [undefined], [null] or a [DataValue] throws, and nothing was changed
    before the throw. *)
Theorem value_other_throws (s : View) (what : string) :
  value ctor_of new_expert (JsOther what) s
  = Thrown "The given value has to be an instance of dataValues.DataValue or null"%string s.
Proof. reflexivity. Qed.

End Claims.

(** Claim C8, counterexample: [value( undefined )] is the getter; it
    returns the current value instead of throwing. *)
Lemma value_undefined_is_getter :
  ~ value_fails_fast demo_ctor demo_expert.
Proof.
  intros H.
  destruct (H demo_start JsUndefined) as [msg Hm]; [discriminate | intros d; discriminate |].
  vm_compute in Hm. discriminate.
Qed.

Lemma reachable_run (ctor_of : option DataValue -> nat) (new_expert : nat -> Expert)
    (evs : list Event) (s : View) :
  reachable ctor_of new_expert s -> reachable ctor_of new_expert (run ctor_of new_expert evs s).
Proof.
  revert s; induction evs as [|ev evs IH]; intros s Hs; simpl; auto.
  apply IH; constructor; exact Hs.
Qed.

Lemma take_request_found k s r :
  find_request k (v_pending s) = Some r ->
  take_request k s
  = Some (r, with_pending (filter (fun p => negb (Nat.eqb (fst p) k)) (v_pending s)) s).
Proof. intros H; unfold take_request; rewrite H; reflexivity. Qed.

Section Staleness.
Variable new_expert : nat -> Expert.


End Staleness.


Example earlier_request_applied_then_latest_dropped :
  let s := run demo_ctor demo_expert trace_a_ab_a demo_start in
  let s1 := parseDone demo_expert 0 (Some dv_a) s in
  let s2 := parseDone demo_expert 2 (Some dv_b) s1 in
  v_value s1 = Some dv_a /\ v_value s2 = Some dv_a.
Proof. vm_compute. auto. Qed.

(** ** [Expert.destroy]: an expert whose viewport is [null] has all its references [null] *)

Lemma expert_destroyed_refs_null (e : ExpertBase.Expert) :
  ExpertBase.reachable e -> ExpertBase.viewPort e = None -> ExpertBase.refs_null e.
Proof.
  induction 1 as [n st nt o p|x e He IH|e He IH]; simpl; intros Hv.
  - discriminate.
  - exact (IH Hv).
  - unfold ExpertBase.destroy in *.
    destruct (ExpertBase.viewPort e) eqn:E; simpl in *.
    + unfold ExpertBase.refs_null; simpl; tauto.
    + exact (IH eq_refl).
Qed.

(** Claim C10: after a first [destroy], every reference of the expert is
    [null], and a second [destroy] returns at once: no extension hook, no
    DOM change, the expert unchanged. *)
Theorem expert_destroy_idempotent (e : ExpertBase.Expert) :
  ExpertBase.reachable e ->
  ExpertBase.refs_null (fst (ExpertBase.destroy e))
  /\ ExpertBase.destroy (fst (ExpertBase.destroy e)) = (fst (ExpertBase.destroy e), []).
Proof.
  intros He. unfold ExpertBase.destroy.
  destruct (ExpertBase.viewPort e) eqn:E; simpl.
  - unfold ExpertBase.refs_null; simpl; tauto.
  - rewrite E; split; [apply expert_destroyed_refs_null; assumption | reflexivity].
Qed.

(** ** Invariants of reachable states *)

Create HintDb viewinv.
#[local] Hint Extern 3 (ids_fresh (_ _ ?s)) => change (ids_fresh s) : viewinv.
#[local] Hint Extern 3 (surface_ok (_ _ ?s)) => change (surface_ok s) : viewinv.

Ltac inv_auto := case_matches; simpl in *; eauto 6 with viewinv.

Lemma add_pending_fresh r s : ids_fresh s -> ids_fresh (add_pending r s).
Proof.
  unfold ids_fresh, add_pending; simpl; intros H.
  apply Forall_app; split.
  - eapply Forall_impl; [|exact H]; simpl; intros; lia.
  - constructor; simpl; [lia | constructor].
Qed.

Lemma add_pending_surface r s : surface_ok s -> surface_ok (add_pending r s).
Proof. auto. Qed.

Lemma take_request_fresh k s r s1 :
  take_request k s = Some (r, s1) -> ids_fresh s -> ids_fresh s1.
Proof.
  unfold take_request; destruct (find_request k (v_pending s)); intros E H; inversion E; subst.
  unfold ids_fresh in *; simpl.
  apply Forall_forall; intros x Hx.
  apply filter_In in Hx as [Hx _].
  exact (proj1 (Forall_forall _ _) H x Hx).
Qed.

Lemma take_request_surface k s r s1 :
  take_request k s = Some (r, s1) -> surface_ok s -> surface_ok s1.
Proof.
  unfold take_request; destruct (find_request k (v_pending s)); intros E H; inversion E; subst; auto.
Qed.

#[local] Hint Resolve add_pending_fresh add_pending_surface : viewinv.

Section Invariants.
Variable ctor_of : option DataValue -> nat.
Variable new_expert : nat -> Expert.

Lemma updateExpert_fresh s : ids_fresh s -> ids_fresh (updateExpert new_expert s).
Proof. unfold updateExpert; inv_auto. Qed.

Lemma updateExpert_ec s :
  v_edit (updateExpert new_expert s) = v_edit s /\ v_content (updateExpert new_expert s) = v_content s.
Proof. unfold updateExpert; case_matches; simpl; auto. Qed.

Lemma updateExpert_surface s : surface_ok s -> surface_ok (updateExpert new_expert s).
Proof.
  destruct (updateExpert_ec s) as [E1 E2]; unfold surface_ok; rewrite E1, E2; auto.
Qed.

#[local] Hint Resolve updateExpert_fresh updateExpert_surface : viewinv.

Lemma drawContent_then_fresh s : ids_fresh s -> ids_fresh (drawContent_then new_expert s).
Proof. unfold drawContent_then; inv_auto. Qed.

Lemma drawContent_then_surface s : surface_ok s -> surface_ok (drawContent_then new_expert s).
Proof. unfold drawContent_then; inv_auto. Qed.

#[local] Hint Resolve drawContent_then_fresh drawContent_then_surface : viewinv.

Lemma drawContent_fresh s : ids_fresh s -> ids_fresh (drawContent new_expert s).
Proof. unfold drawContent, drawStaticContent; inv_auto. Qed.

Lemma drawContent_surface s : surface_ok s -> surface_ok (drawContent new_expert s).
Proof.
  unfold drawContent, drawStaticContent; case_matches; simpl in *; eauto with viewinv.
  right; split; [assumption | eexists; reflexivity].
Qed.

#[local] Hint Resolve drawContent_fresh drawContent_surface : viewinv.
#[local] Hint Unfold draw : viewinv.

Lemma setValue_fresh x s : ids_fresh s -> ids_fresh (setValue ctor_of new_expert x s).
Proof. unfold setValue, updateExpertConstructor, draw; inv_auto. Qed.

Lemma setValue_surface x s : surface_ok s -> surface_ok (setValue ctor_of new_expert x s).
Proof. unfold setValue, updateExpertConstructor, draw; inv_auto. Qed.

#[local] Hint Resolve setValue_fresh setValue_surface : viewinv.

Lemma value_fresh x s : ids_fresh s -> ids_fresh (outcome_state (value ctor_of new_expert x s)).
Proof. unfold value; inv_auto. Qed.

Lemma value_surface x s : surface_ok s -> surface_ok (outcome_state (value ctor_of new_expert x s)).
Proof. unfold value; inv_auto. Qed.

#[local] Hint Resolve value_fresh value_surface : viewinv.

Lemma startEditing_fresh s : ids_fresh s -> ids_fresh (startEditing new_expert s).
Proof. unfold startEditing, draw; inv_auto. Qed.

Lemma startEditing_surface s : surface_ok s -> surface_ok (startEditing new_expert s).
Proof.
  intros H; unfold startEditing, draw; case_matches; auto.
  apply drawContent_surface; left; simpl; auto.
Qed.

Lemma stopEditing_fresh b s : ids_fresh s -> ids_fresh (stopEditing ctor_of new_expert b s).
Proof.
  intros H; unfold stopEditing; destruct (v_edit s); simpl; [|exact H].
  assert (H1 : ids_fresh (if b then outcome_state (value ctor_of new_expert
                 (js_of_value (initialValue s)) s) else s))
    by (destruct b; auto with viewinv).
  revert H1; generalize (if b then outcome_state (value ctor_of new_expert
                 (js_of_value (initialValue s)) s) else s); intros s1 H1.
  unfold draw; apply drawContent_fresh.
  unfold detach_value_node, destroyExpert; inv_auto.
Qed.

Lemma drawContent_static s : v_edit s = false -> surface_ok (drawContent new_expert s).
Proof.
  intros E; unfold drawContent, drawStaticContent; rewrite E; right; simpl; eauto.
Qed.

Lemma stopEditing_surface b s : surface_ok s -> surface_ok (stopEditing ctor_of new_expert b s).
Proof.
  intros H; unfold stopEditing; destruct (v_edit s); simpl; [|exact H].
  unfold draw; apply drawContent_static.
  unfold detach_value_node, destroyExpert; case_matches; simpl in *; congruence.
Qed.

#[local] Hint Resolve startEditing_fresh startEditing_surface stopEditing_fresh stopEditing_surface
  : viewinv.

Lemma renderError_fresh m s : ids_fresh s -> ids_fresh (renderError m s).
Proof. unfold renderError; inv_auto. Qed.

Lemma renderError_surface m s : surface_ok s -> surface_ok (renderError m s).
Proof. unfold renderError; inv_auto. Qed.

#[local] Hint Resolve renderError_fresh renderError_surface : viewinv.

Lemma updateValue_done_fresh r s : ids_fresh s -> ids_fresh (updateValue_done new_expert r s).
Proof. unfold updateValue_done; inv_auto. Qed.

Lemma updateValue_done_surface r s : surface_ok s -> surface_ok (updateValue_done new_expert r s).
Proof. unfold updateValue_done; inv_auto. Qed.

Lemma updateValue_fail_fresh m s : ids_fresh s -> ids_fresh (updateValue_fail m s).
Proof. unfold updateValue_fail; inv_auto. Qed.

Lemma updateValue_fail_surface m s : surface_ok s -> surface_ok (updateValue_fail m s).
Proof. unfold updateValue_fail; inv_auto. Qed.

#[local] Hint Resolve updateValue_done_fresh updateValue_done_surface updateValue_fail_fresh
  updateValue_fail_surface : viewinv.

Lemma updateValue_fresh s : ids_fresh s -> ids_fresh (updateValue new_expert s).
Proof. unfold updateValue, parseValue; inv_auto. Qed.

Lemma updateValue_surface s : surface_ok s -> surface_ok (updateValue new_expert s).
Proof. unfold updateValue, parseValue; inv_auto. Qed.

#[local] Hint Resolve updateValue_fresh updateValue_surface : viewinv.

Lemma userInput_fresh r c s : ids_fresh s -> ids_fresh (userInput new_expert r c s).
Proof. unfold userInput, notifyChange; inv_auto. Qed.

Lemma userInput_surface r c s : surface_ok s -> surface_ok (userInput new_expert r c s).
Proof. unfold userInput, notifyChange; inv_auto. Qed.

Lemma tick_fresh d s : ids_fresh s -> ids_fresh (tick d s).
Proof. unfold tick, fireParseTimer; inv_auto. Qed.

Lemma tick_surface d s : surface_ok s -> surface_ok (tick d s).
Proof. unfold tick, fireParseTimer; inv_auto. Qed.

#[local] Hint Resolve userInput_fresh userInput_surface tick_fresh tick_surface : viewinv.
#[local] Hint Resolve take_request_fresh take_request_surface : viewinv.

Lemma parseDone_fresh k r s : ids_fresh s -> ids_fresh (parseDone new_expert k r s).
Proof. unfold parseDone; inv_auto. Qed.

Lemma parseDone_surface k r s : surface_ok s -> surface_ok (parseDone new_expert k r s).
Proof. unfold parseDone; inv_auto. Qed.

Lemma parseFail_fresh k m s : ids_fresh s -> ids_fresh (parseFail k m s).
Proof. unfold parseFail; inv_auto. Qed.

Lemma parseFail_surface k m s : surface_ok s -> surface_ok (parseFail k m s).
Proof. unfold parseFail; inv_auto. Qed.

Lemma formatDone_fresh k f d s : ids_fresh s -> ids_fresh (formatDone new_expert k f d s).
Proof. unfold formatDone, draw; inv_auto. Qed.

Lemma formatDone_surface k f d s : surface_ok s -> surface_ok (formatDone new_expert k f d s).
Proof. unfold formatDone, draw; inv_auto. Qed.

Lemma formatFail_fresh k m s : ids_fresh s -> ids_fresh (formatFail k m s).
Proof. unfold formatFail; inv_auto. Qed.

Lemma formatFail_surface k m s : surface_ok s -> surface_ok (formatFail k m s).
Proof. unfold formatFail; inv_auto. Qed.

#[local] Hint Resolve parseDone_fresh parseDone_surface parseFail_fresh parseFail_surface
  formatDone_fresh formatDone_surface formatFail_fresh formatFail_surface : viewinv.

Lemma step_fresh ev s : ids_fresh s -> ids_fresh (step ctor_of new_expert ev s).
Proof. destruct ev; simpl; unfold cancelEditing, setDisabled, draw; inv_auto. Qed.

Lemma step_surface ev s : surface_ok s -> surface_ok (step ctor_of new_expert ev s).
Proof. destruct ev; simpl; unfold cancelEditing, setDisabled, draw; inv_auto. Qed.

Lemma create_fresh d h x a : ids_fresh (create ctor_of new_expert d h x a).
Proof.
  assert (H0 : ids_fresh (blank d h)) by constructor.
  unfold create, initValue, draw, updateExpertConstructor; inv_auto.
Qed.

Lemma create_surface d h x a : surface_ok (create ctor_of new_expert d h x a).
Proof.
  assert (H0 : surface_ok (blank d h)) by (right; simpl; eauto).
  unfold create, initValue, draw, updateExpertConstructor; inv_auto.
Qed.

Lemma reachable_fresh s : reachable ctor_of new_expert s -> ids_fresh s.
Proof. induction 1; auto using create_fresh, step_fresh. Qed.

Lemma reachable_surface s : reachable ctor_of new_expert s -> surface_ok s.
Proof. induction 1; auto using create_surface, step_surface. Qed.

End Invariants.

Lemma find_request_last n r l :
  Forall (fun p => fst p < n) l -> find_request n (l ++ [(n, r)]) = Some r.
Proof.
  induction 1 as [|[k' r'] l Hk Hl IH]; simpl.
  - rewrite Nat.eqb_refl; reflexivity.
  - simpl in Hk. destruct (Nat.eqb n k') eqn:E; [apply Nat.eqb_eq in E; lia | exact IH].
Qed.

Section Editing.
Variable ctor_of : option DataValue -> nat.
Variable new_expert : nat -> Expert.

Lemma setValue_value x s :
  v_value (setValue ctor_of new_expert x s)
  = match v_value s, x with
    | Some cur, Some w => if dv_json_eq w cur then Some cur else x
    | _, _ => x
    end.
Proof.
  unfold setValue, updateExpertConstructor, draw.
  destruct (v_value s) as [cur|] eqn:Ev, x as [w|]; simpl;
  try destruct (dv_json_eq w cur) eqn:Ej; simpl; auto;
  try (rewrite (proj1 (drawContent_frame new_expert _)); simpl; auto).
Qed.

Lemma stopEditing_edit b s : v_edit (stopEditing ctor_of new_expert b s) = false.
Proof.
  unfold stopEditing; destruct (v_edit s) eqn:E; simpl; [|exact E].
  unfold draw; rewrite (proj1 (proj2 (proj2 (drawContent_frame new_expert _)))).
  unfold detach_value_node, destroyExpert; case_matches; simpl; reflexivity.
Qed.

Lemma stopEditing_value b s :
  v_value (stopEditing ctor_of new_expert b s)
  = v_value (if v_edit s && b
             then outcome_state (value ctor_of new_expert (js_of_value (v_initial s)) s)
             else s).
Proof.
  unfold stopEditing; destruct (v_edit s) eqn:E; simpl; [|reflexivity].
  unfold draw; rewrite (proj1 (drawContent_frame new_expert _)).
  unfold initialValue; rewrite E; simpl.
  unfold detach_value_node, destroyExpert; case_matches; simpl; reflexivity.
Qed.

Lemma value_js_of_value_json x s :
  same_json (v_value (outcome_state (value ctor_of new_expert (js_of_value x) s))) x.
Proof.
  destruct x as [w|]; simpl; rewrite setValue_value.
  - destruct (v_value s) as [cur|]; simpl.
    + destruct (dv_json_eq w cur) eqn:Ej; simpl.
      * unfold dv_json_eq in *; rewrite String.eqb_sym; exact Ej.
      * unfold dv_json_eq; apply String.eqb_refl.
    + unfold dv_json_eq; apply String.eqb_refl.
  - destruct (v_value s); simpl; exact I.
Qed.

(** Claim C5: in every reachable state exactly one of the static markup
    and the editable [$value] surface is in the element, and it is the
    editable one exactly in edit mode. *)
Theorem one_surface_shown (s : View) :
  reachable ctor_of new_expert s ->
  xorb (static_shown s) (editable_shown s) = true /\ editable_shown s = v_edit s.
Proof.
  intros Hr.
  destruct (reachable_surface ctor_of new_expert s Hr) as [[E C] | [E [h C]]];
    unfold static_shown, editable_shown; rewrite C, E; auto.
Qed.

(** Claim C7: a parser response accepted for the pending tag, followed by
    the formatter's response for the value it produced, then
    [stopEditing( false )]: the widget is in static mode and
    [initialValue()] is the parsed value. *)
Theorem stopEditing_commits_parsed_value (s : View) (k : nat) (raw : string)
    (d : DataValue) (html : string) :
  reachable ctor_of new_expert s ->
  find_request k (v_pending s) = Some (ReqParse raw) ->
  v_lastUpdate s = Some raw ->
  let s1 := parseDone new_expert k (Some d) s in
  let s2 := formatDone new_expert (v_next s) html d s1 in
  let s3 := stopEditing ctor_of new_expert false s2 in
  v_value s1 = Some d /\ v_formatted s2 = Some html /\ v_value s2 = Some d
  /\ v_edit s3 = false /\ initialValue s3 = Some d.
Proof.
  intros Hr Hk Hl s1 s2 s3.
  set (s0 := with_pending (filter (fun p => negb (Nat.eqb (fst p) k)) (v_pending s)) s).
  assert (Hf0 : ids_fresh s0).
  { apply (take_request_fresh k s (ReqParse raw)); [apply take_request_found; exact Hk|].
    exact (reachable_fresh ctor_of new_expert s Hr). }
  assert (E1 : s1 = add_pending (ReqFormatUpdate d) (with_value (Some d) (with_lastUpdate None s0))).
  { unfold s1, parseDone; rewrite (take_request_found k s _ Hk); simpl.
    rewrite Hl, String.eqb_refl; reflexivity. }
  assert (E2 : find_request (v_next s) (v_pending s1) = Some (ReqFormatUpdate d)).
  { rewrite E1; simpl. apply find_request_last. exact Hf0. }
  assert (V1 : v_value s1 = Some d) by (rewrite E1; reflexivity).
  assert (F2 : draw_frame s2 (with_formatted (Some html)
                 (with_pending (filter (fun p => negb (Nat.eqb (fst p) (v_next s))) (v_pending s1)) s1))).
  { unfold s2, formatDone; rewrite (take_request_found _ s1 _ E2); simpl.
    unfold dv_same; rewrite Nat.eqb_refl. apply drawContent_frame. }
  destruct F2 as (F2v & F2f & _).
  simpl in F2v, F2f.
  assert (V2 : v_value s2 = Some d) by congruence.
  assert (Ed : v_edit s3 = false) by apply stopEditing_edit.
  assert (V3 : v_value s3 = Some d).
  { unfold s3; rewrite stopEditing_value, andb_false_r; exact V2. }
  refine (conj V1 (conj _ (conj V2 (conj Ed _)))).
  - rewrite F2f; reflexivity.
  - unfold initialValue; rewrite Ed; exact V3.
Qed.

End Editing.

Section Rollback.
Variable ctor_of : option DataValue -> nat.
Variable new_expert : nat -> Expert.

(** Claim C3 (as corrected): from static mode, [startEditing] then
    [cancelEditing] leaves the widget in static mode with the very value
    it had; from edit mode, [startEditing] does nothing and
    [cancelEditing] reinstates (up to serialisation) the value captured
    when edit mode was entered. *)
Theorem start_then_cancel (s : View) :
  (v_edit s = false ->
     v_edit (cancelEditing ctor_of new_expert (startEditing new_expert s)) = false
     /\ v_value (cancelEditing ctor_of new_expert (startEditing new_expert s)) = v_value s)
  /\ (v_edit s = true ->
     startEditing new_expert s = s
     /\ same_json (v_value (cancelEditing ctor_of new_expert (startEditing new_expert s)))
                  (v_initial s)).
Proof.
  split; intros E.
  - split; [apply stopEditing_edit|].
    unfold cancelEditing; rewrite stopEditing_value.
    unfold startEditing; rewrite E; unfold draw.
    set (s2 := with_content ContentValueNode (with_edit true (with_initial (v_value s) s))).
    destruct (drawContent_frame new_expert s2) as (Fv & _ & Fe & Fi & _).
    rewrite Fe, Fi; simpl.
    destruct (v_value s) as [d|] eqn:Ev; simpl; rewrite setValue_value, Fv; simpl; rewrite Ev.
    + unfold dv_json_eq; rewrite String.eqb_refl; reflexivity.
    + reflexivity.
  - assert (Hs : startEditing new_expert s = s) by (unfold startEditing; rewrite E; reflexivity).
    split; [exact Hs|].
    rewrite Hs; unfold cancelEditing; rewrite stopEditing_value, E; simpl.
    apply value_js_of_value_json.
Qed.

(** Claim C4: a parser failure with a message [M] (a non-empty string)
    sets the value to [null] and passes exactly [M] to the current
    expert's preview (its error display); a parser or formatter failure
    without a message, [undefined] or the empty string that
    [if( message )] treats alike, changes nothing that is displayed. *)
Theorem parse_failure_reported (s : View) (k : nat) (req : Request) :
  find_request k (v_pending s) = Some req ->
  match req with
  | ReqParse _ =>
      (forall M, M <> ""%string ->
         v_value (parseFail k (Some M) s) = None
         /\ forall e log, v_expert s = Some e -> ex_preview e = Some log ->
            v_expert (parseFail k (Some M) s) = Some (with_preview (log ++ [M]) e))
      /\ displayed_same (parseFail k None s) s
      /\ displayed_same (parseFail k (Some ""%string) s) s
  | ReqFormat _ | ReqFormatUpdate _ | ReqTextValue _ =>
      displayed_same (formatFail k None s) s
      /\ displayed_same (formatFail k (Some ""%string) s) s
  end.
Proof.
  intros Hk; unfold parseFail, formatFail, updateValue_fail;
    rewrite (take_request_found k s req Hk).
  destruct req; simpl; try (unfold displayed_same; simpl; tauto).
  split; [|unfold displayed_same; simpl; tauto].
  intros M HM; unfold message_of; apply String.eqb_neq in HM; rewrite HM.
  unfold renderError; simpl.
  split.
  - destruct (v_expert s) as [e|]; [destruct (ex_preview e)|]; reflexivity.
  - intros e log He Hp; rewrite He, Hp; reflexivity.
Qed.

End Rollback.

(** Claim C3, counterexample: in edit mode, after the user entered the
    value [dv_a] into a widget that was empty before editing,
    [startEditing] is a no-op and [cancelEditing] restores [null], not
    the current value [dv_a]. *)
Lemma start_cancel_in_edit_mode_rolls_back :
  ~ start_cancel_restores demo_ctor demo_expert.
Proof.
  intros H.
  set (s := run demo_ctor demo_expert [EvInput (RawDataValue dv_a) []] demo_start).
  assert (Hr : reachable demo_ctor demo_expert s) by (apply reachable_run; constructor).
  specialize (H s Hr). vm_compute in H. exact H.
Qed.

(** ** Debouncing *)

Section Debounce.
Variable new_expert : nat -> Expert.

Lemma userInput_string_detected r c s :
  change_detected (RawString r) c s = true ->
  let s1 := userInput new_expert (RawString r) c s in
  v_timer s1 = Some (mkTimer (v_now s + v_parseDelay s) r)
  /\ v_dispatched s1 = v_dispatched s /\ v_now s1 = v_now s
  /\ v_parseDelay s1 = v_parseDelay s /\ v_lastUpdate s1 = Some r.
Proof.
  unfold change_detected, userInput, notifyChange, updateValue, parseValue.
  destruct (v_expert s) as [e|] eqn:E; [|discriminate].
  intros H; simpl; rewrite H; simpl; auto.
Qed.

Lemma tick_not_due d s t :
  v_timer s = Some t -> v_now s + d < tm_due t -> tick d s = with_now (v_now s + d) s.
Proof.
  intros Ht Hd; unfold tick; simpl; rewrite Ht.
  destruct (tm_due t <=? v_now s + d) eqn:E; [apply Nat.leb_le in E; lia | reflexivity].
Qed.

Lemma burst_last_pending bs r c d s :
  burst_detected new_expert (bs ++ [(r, c, d)]) s = true ->
  Forall (fun x => snd x < v_parseDelay s) (bs ++ [(r, c, d)]) ->
  let s' := burst new_expert (bs ++ [(r, c, d)]) s in
  v_dispatched s' = v_dispatched s /\ v_parseDelay s' = v_parseDelay s
  /\ v_lastUpdate s' = Some r
  /\ exists t, v_timer s' = Some t /\ tm_raw t = r
               /\ v_now s' < tm_due t /\ tm_due t <= v_now s' + v_parseDelay s'.
Proof.
  revert s; induction bs as [|[[r0 c0] d0] bs IH]; intros s Hdet Hall; simpl in *.
  - rewrite andb_true_r in Hdet.
    inversion Hall as [|x l Hd _]; subst; simpl in Hd.
    destruct (userInput_string_detected r c s Hdet) as (T & D & N & P & L).
    rewrite (tick_not_due d _ _ T) by (rewrite N; simpl; lia); simpl.
    repeat split; auto.
    exists (mkTimer (v_now s + v_parseDelay s) r); simpl; rewrite N, P.
    split; [exact T|]; split; [reflexivity|]; lia.
  - apply andb_prop in Hdet as [Hdet Hrest].
    inversion Hall as [|x l Hd Hall']; subst; simpl in Hd.
    destruct (userInput_string_detected r0 c0 s Hdet) as (T & D & N & P & L).
    rewrite (tick_not_due d0 _ _ T) in Hrest |- * by (rewrite N; simpl; lia).
    assert (Hall2 : Forall (fun x => snd x < v_parseDelay (with_now (v_now (userInput new_expert
                      (RawString r0) c0 s) + d0) (userInput new_expert (RawString r0) c0 s)))
                      (bs ++ [(r, c, d)])) by (simpl; rewrite P; exact Hall').
    destruct (IH _ Hrest Hall2) as (D' & P' & L' & Ht).
    simpl in D', P'. rewrite D, P in *. rewrite D', P'. rewrite P' in Ht.
    repeat split; auto.
Qed.

(** Claim C2 (as corrected): within a burst of string inputs that the
    notifier counts as changes, each entered before the pending timer is
    due ([parseDelay] milliseconds after the previous one), nothing is sent
    to the parser; once [parseDelay] milliseconds have passed, exactly the
    last raw value is sent, once. *)
Theorem debounce_dispatches_last (bs : list (string * Chars * nat)) (r : string) (c : Chars)
    (d : nat) (s : View) :
  burst_detected new_expert (bs ++ [(r, c, d)]) s = true ->
  Forall (fun x => snd x < v_parseDelay s) (bs ++ [(r, c, d)]) ->
  v_dispatched (burst new_expert (bs ++ [(r, c, d)]) s) = v_dispatched s
  /\ v_dispatched (tick (v_parseDelay s) (burst new_expert (bs ++ [(r, c, d)]) s)) = v_dispatched s ++ [r].
Proof.
  intros Hdet Hall.
  destruct (burst_last_pending bs r c d s Hdet Hall) as (D & P & _ & t & T & R & _ & Due).
  split; [exact D|].
  unfold tick; simpl; rewrite T.
  replace (tm_due t <=? v_now (burst new_expert (bs ++ [(r, c, d)]) s) + v_parseDelay s) with true
    by (symmetry; apply Nat.leb_le; rewrite <- P; exact Due).
  unfold fireParseTimer; simpl; rewrite D, R; reflexivity.
Qed.

End Debounce.

(** Claim C2, counterexample: in a widget whose text value is "", the user
    types "a" and, 100 ms later, deletes it again.  The second
    notification is not counted as a change (the raw value equals the
    text value), so the timer of "a" keeps running and "a" is sent to the
    parser. *)
Lemma undetected_change_keeps_timer :
  ~ debounce_last_only demo_ctor demo_expert.
Proof.
  intros H.
  assert (Hr : reachable demo_ctor demo_expert demo_start) by constructor.
  specialize (H demo_start "a"%string [] 100 ""%string [] Hr eq_refl).
  assert (Hd : 100 < v_parseDelay demo_start) by (vm_compute; lia).
  specialize (H Hd). vm_compute in H. destruct H as [H|H]; discriminate.
Qed.

(** ** More invariants of reachable states *)

Create HintDb moreinv.
#[local] Hint Extern 3 (static_clean (_ _ ?s)) => change (static_clean s) : moreinv.
#[local] Hint Extern 3 (ids_ok (_ _ ?s)) => change (ids_ok s) : moreinv.
#[local] Hint Extern 3 (keeps (_ _ ?s') ?s) => change (keeps s' s) : moreinv.

Ltac more_auto := case_matches; simpl in *; eauto 6 with moreinv.

Lemma static_clean_edit s : v_edit s = true -> static_clean s.
Proof. intros E H; congruence. Qed.

Lemma keeps_refl s : keeps s s.
Proof. split; reflexivity. Qed.

Lemma frame_keeps t' t s : draw_frame t' t -> keeps t s -> keeps t' s.
Proof. unfold draw_frame, keeps; intuition congruence. Qed.

Lemma NoDup_snoc {A} (l : list A) x : NoDup l -> ~ In x l -> NoDup (l ++ [x]).
Proof.
  induction 1 as [|a l Ha Hl IH]; simpl; intros Hx.
  - constructor; [intros []|constructor].
  - constructor.
    + intros Hin; apply in_app_or in Hin as [Hin|[Hin|[]]]; [contradiction|].
      apply Hx; left; congruence.
    + apply IH; intros Hin; apply Hx; right; exact Hin.
Qed.

Lemma NoDup_map_filter {A B} (f : A -> B) (q : A -> bool) l :
  NoDup (map f l) -> NoDup (map f (filter q l)).
Proof.
  induction l as [|a l IH]; simpl; intros H; [constructor|].
  inversion H as [|x y Hn Hd]; subst.
  destruct (q a); simpl; [constructor|]; auto.
  intros Hin; apply Hn.
  apply in_map_iff in Hin as (b & Hb & Hbin); apply filter_In in Hbin as [Hbin _].
  rewrite <- Hb; apply in_map; exact Hbin.
Qed.

Lemma add_pending_ok r s : ids_ok s -> ids_ok (add_pending r s).
Proof.
  intros [Hf Hn]; split; [apply add_pending_fresh; exact Hf|].
  simpl; rewrite map_app; simpl; apply NoDup_snoc; [exact Hn|].
  intros Hin; apply in_map_iff in Hin as ([k r'] & Hk & Hin); simpl in Hk; subst.
  apply (proj1 (Forall_forall _ _) Hf) in Hin; simpl in Hin; lia.
Qed.

Lemma take_request_ok k s r s1 : take_request k s = Some (r, s1) -> ids_ok s -> ids_ok s1.
Proof.
  intros E [Hf Hn]; split; [exact (take_request_fresh k s r s1 E Hf)|].
  unfold take_request in E; destruct (find_request k (v_pending s)); inversion E; subst; simpl.
  apply NoDup_map_filter; exact Hn.
Qed.

Lemma take_request_clean k s r s1 :
  take_request k s = Some (r, s1) -> static_clean s -> static_clean s1.
Proof.
  unfold take_request; destruct (find_request k (v_pending s)); intros E H; inversion E; subst; exact H.
Qed.

Lemma take_request_keeps k t r t1 s : take_request k t = Some (r, t1) -> keeps t s -> keeps t1 s.
Proof.
  unfold take_request; destruct (find_request k (v_pending t)); intros E H; inversion E; subst; exact H.
Qed.

Lemma add_pending_clean r s : static_clean s -> static_clean (add_pending r s).
Proof. intros H; exact H. Qed.

Lemma add_pending_keeps r t s : keeps t s -> keeps (add_pending r t) s.
Proof. intros H; exact H. Qed.

#[local] Hint Resolve keeps_refl add_pending_ok add_pending_clean add_pending_keeps take_request_ok
  take_request_clean take_request_keeps : moreinv.

Section MoreInvariants.
Variable ctor_of : option DataValue -> nat.
Variable new_expert : nat -> Expert.

Lemma updateExpert_ok s : ids_ok s -> ids_ok (updateExpert new_expert s).
Proof. unfold updateExpert; more_auto. Qed.

Lemma updateExpert_keeps t s : keeps t s -> keeps (updateExpert new_expert t) s.
Proof. apply frame_keeps, updateExpert_frame. Qed.

#[local] Hint Resolve updateExpert_ok updateExpert_keeps : moreinv.

Lemma drawContent_then_ok s : ids_ok s -> ids_ok (drawContent_then new_expert s).
Proof. unfold drawContent_then; more_auto. Qed.

Lemma drawContent_then_clean s : static_clean s -> static_clean (drawContent_then new_expert s).
Proof.
  intros H; unfold drawContent_then; destruct (v_edit s) eqn:E; simpl; [|exact H].
  apply static_clean_edit; rewrite (proj1 (updateExpert_ec new_expert s)); exact E.
Qed.

Lemma drawContent_then_keeps t s : keeps t s -> keeps (drawContent_then new_expert t) s.
Proof. apply frame_keeps, drawContent_then_frame. Qed.

#[local] Hint Resolve updateExpert_ok updateExpert_keeps drawContent_then_ok drawContent_then_clean
  drawContent_then_keeps : moreinv.

Lemma drawContent_ok s : ids_ok s -> ids_ok (drawContent new_expert s).
Proof. unfold drawContent, drawStaticContent; more_auto. Qed.

Lemma drawContent_clean s : static_clean s -> static_clean (drawContent new_expert s).
Proof. unfold drawContent, drawStaticContent; more_auto. Qed.

Lemma drawContent_keeps t s : keeps t s -> keeps (drawContent new_expert t) s.
Proof. apply frame_keeps, drawContent_frame. Qed.

#[local] Hint Resolve drawContent_ok drawContent_clean drawContent_keeps : moreinv.
#[local] Hint Unfold draw : moreinv.

Lemma setValue_ok x s : ids_ok s -> ids_ok (setValue ctor_of new_expert x s).
Proof. unfold setValue, updateExpertConstructor, draw; more_auto. Qed.

Lemma setValue_clean x s : static_clean s -> static_clean (setValue ctor_of new_expert x s).
Proof. unfold setValue, updateExpertConstructor, draw; more_auto. Qed.

Lemma setValue_keeps x t s : keeps t s -> keeps (setValue ctor_of new_expert x t) s.
Proof. unfold setValue, updateExpertConstructor, draw; more_auto. Qed.

#[local] Hint Resolve setValue_ok setValue_clean setValue_keeps : moreinv.

Lemma value_ok x s : ids_ok s -> ids_ok (outcome_state (value ctor_of new_expert x s)).
Proof. unfold value; more_auto. Qed.

Lemma value_clean x s : static_clean s -> static_clean (outcome_state (value ctor_of new_expert x s)).
Proof. unfold value; more_auto. Qed.

Lemma value_keeps x t s : keeps t s -> keeps (outcome_state (value ctor_of new_expert x t)) s.
Proof. unfold value; more_auto. Qed.

#[local] Hint Resolve value_ok value_clean value_keeps : moreinv.

Lemma startEditing_ok s : ids_ok s -> ids_ok (startEditing new_expert s).
Proof. unfold startEditing, draw; more_auto. Qed.

Lemma startEditing_clean s : static_clean s -> static_clean (startEditing new_expert s).
Proof.
  intros H; unfold startEditing; destruct (v_edit s); [exact H|].
  unfold draw; apply drawContent_clean, static_clean_edit; reflexivity.
Qed.

Lemma stopEditing_ok b s : ids_ok s -> ids_ok (stopEditing ctor_of new_expert b s).
Proof.
  intros H; unfold stopEditing; destruct (v_edit s); simpl; [|exact H].
  assert (H1 : ids_ok (if b then outcome_state (value ctor_of new_expert
                 (js_of_value (initialValue s)) s) else s))
    by (destruct b; auto with moreinv).
  revert H1; generalize (if b then outcome_state (value ctor_of new_expert
                 (js_of_value (initialValue s)) s) else s); intros s1 H1.
  unfold draw; apply drawContent_ok.
  unfold detach_value_node, destroyExpert; more_auto.
Qed.

Lemma stopEditing_clean b s : static_clean s -> static_clean (stopEditing ctor_of new_expert b s).
Proof.
  intros H; unfold stopEditing; destruct (v_edit s); simpl; [|exact H].
  unfold draw; apply drawContent_clean.
  unfold detach_value_node, destroyExpert; case_matches; intros _; simpl in *; auto.
Qed.

#[local] Hint Resolve startEditing_ok startEditing_clean stopEditing_ok stopEditing_clean : moreinv.

Lemma renderError_ok m s : ids_ok s -> ids_ok (renderError m s).
Proof. unfold renderError; more_auto. Qed.

Lemma renderError_clean m s : static_clean s -> static_clean (renderError m s).
Proof.
  intros H; unfold renderError; case_matches; try exact H.
  intros Hed; simpl in *; destruct (H Hed); split; congruence.
Qed.

Lemma renderError_keeps m t s : keeps t s -> keeps (renderError m t) s.
Proof. unfold renderError; more_auto. Qed.

#[local] Hint Resolve renderError_ok renderError_clean renderError_keeps : moreinv.

Lemma updateValue_done_ok r s : ids_ok s -> ids_ok (updateValue_done new_expert r s).
Proof. unfold updateValue_done; more_auto. Qed.

Lemma updateValue_done_clean r s : static_clean s -> static_clean (updateValue_done new_expert r s).
Proof. unfold updateValue_done; more_auto. Qed.

Lemma updateValue_done_keeps r t s : keeps t s -> keeps (updateValue_done new_expert r t) s.
Proof. unfold updateValue_done; more_auto. Qed.

Lemma updateValue_fail_ok m s : ids_ok s -> ids_ok (updateValue_fail m s).
Proof. unfold updateValue_fail; more_auto. Qed.

Lemma updateValue_fail_clean m s : static_clean s -> static_clean (updateValue_fail m s).
Proof. unfold updateValue_fail; more_auto. Qed.

Lemma updateValue_fail_keeps m t s : keeps t s -> keeps (updateValue_fail m t) s.
Proof. unfold updateValue_fail; more_auto. Qed.

#[local] Hint Resolve updateValue_done_ok updateValue_done_clean updateValue_done_keeps
  updateValue_fail_ok updateValue_fail_clean updateValue_fail_keeps : moreinv.

Lemma updateValue_ok s : ids_ok s -> ids_ok (updateValue new_expert s).
Proof. unfold updateValue, parseValue; more_auto. Qed.

Lemma updateValue_clean s : static_clean s -> static_clean (updateValue new_expert s).
Proof. unfold updateValue, parseValue; more_auto. Qed.

Lemma updateValue_keeps t s : keeps t s -> keeps (updateValue new_expert t) s.
Proof. unfold updateValue, parseValue; more_auto. Qed.

#[local] Hint Resolve updateValue_ok updateValue_clean updateValue_keeps : moreinv.

Lemma userInput_ok r c s : ids_ok s -> ids_ok (userInput new_expert r c s).
Proof. unfold userInput, notifyChange; more_auto. Qed.

Lemma userInput_clean r c s : static_clean s -> static_clean (userInput new_expert r c s).
Proof.
  intros H; unfold userInput; destruct (v_expert s) as [e|] eqn:E; [|exact H].
  destruct (v_edit s) eqn:Ed.
  - assert (H' : static_clean (with_expert (Some (with_raw r c e)) s))
      by (apply static_clean_edit; exact Ed).
    revert H'; unfold notifyChange; more_auto.
  - destruct (H Ed); congruence.
Qed.

Lemma userInput_keeps r c t s : keeps t s -> keeps (userInput new_expert r c t) s.
Proof. unfold userInput, notifyChange; more_auto. Qed.

Lemma tick_ok d s : ids_ok s -> ids_ok (tick d s).
Proof. unfold tick, fireParseTimer; more_auto. Qed.

Lemma tick_clean d s : static_clean s -> static_clean (tick d s).
Proof. unfold tick, fireParseTimer; more_auto. Qed.

#[local] Hint Resolve userInput_ok userInput_clean userInput_keeps tick_ok tick_clean : moreinv.

Lemma parseDone_ok k r s : ids_ok s -> ids_ok (parseDone new_expert k r s).
Proof. unfold parseDone; more_auto. Qed.

Lemma parseDone_clean k r s : static_clean s -> static_clean (parseDone new_expert k r s).
Proof. unfold parseDone; more_auto. Qed.

Lemma parseDone_keeps k r t s : keeps t s -> keeps (parseDone new_expert k r t) s.
Proof. unfold parseDone; more_auto. Qed.

Lemma parseFail_ok k m s : ids_ok s -> ids_ok (parseFail k m s).
Proof. unfold parseFail; more_auto. Qed.

Lemma parseFail_clean k m s : static_clean s -> static_clean (parseFail k m s).
Proof. unfold parseFail; more_auto. Qed.

Lemma parseFail_keeps k m t s : keeps t s -> keeps (parseFail k m t) s.
Proof. unfold parseFail; more_auto. Qed.

Lemma formatDone_ok k f d s : ids_ok s -> ids_ok (formatDone new_expert k f d s).
Proof. unfold formatDone, draw; more_auto. Qed.

Lemma formatDone_clean k f d s : static_clean s -> static_clean (formatDone new_expert k f d s).
Proof. unfold formatDone, draw; more_auto. Qed.

Lemma formatDone_keeps k f d t s : keeps t s -> keeps (formatDone new_expert k f d t) s.
Proof. unfold formatDone, draw; more_auto. Qed.

Lemma formatFail_ok k m s : ids_ok s -> ids_ok (formatFail k m s).
Proof. unfold formatFail; more_auto. Qed.

Lemma formatFail_clean k m s : static_clean s -> static_clean (formatFail k m s).
Proof. unfold formatFail; more_auto. Qed.

Lemma formatFail_keeps k m t s : keeps t s -> keeps (formatFail k m t) s.
Proof. unfold formatFail; more_auto. Qed.

#[local] Hint Resolve parseDone_ok parseDone_clean parseDone_keeps parseFail_ok parseFail_clean
  parseFail_keeps formatDone_ok formatDone_clean formatDone_keeps formatFail_ok formatFail_clean
  formatFail_keeps : moreinv.

Lemma step_ok ev s : ids_ok s -> ids_ok (step ctor_of new_expert ev s).
Proof. destruct ev; simpl; unfold cancelEditing, setDisabled, draw; more_auto. Qed.

Lemma step_clean ev s : static_clean s -> static_clean (step ctor_of new_expert ev s).
Proof. destruct ev; simpl; unfold cancelEditing, setDisabled, draw; more_auto. Qed.

Lemma create_ok d h x a : ids_ok (create ctor_of new_expert d h x a).
Proof.
  assert (H0 : ids_ok (blank d h)) by (split; constructor).
  unfold create, initValue, draw, updateExpertConstructor; more_auto.
Qed.

Lemma create_clean d h x a : static_clean (create ctor_of new_expert d h x a).
Proof.
  assert (H0 : static_clean (blank d h)) by (intros _; split; reflexivity).
  unfold create, initValue, draw, updateExpertConstructor; more_auto.
Qed.

Lemma reachable_ok s : reachable ctor_of new_expert s -> ids_ok s.
Proof. induction 1; auto using create_ok, step_ok. Qed.

Lemma reachable_clean s : reachable ctor_of new_expert s -> static_clean s.
Proof. induction 1; auto using create_clean, step_clean. Qed.

End MoreInvariants.

#[local] Hint Resolve updateExpert_ok updateExpert_keeps drawContent_then_ok drawContent_then_clean
  drawContent_then_keeps drawContent_ok drawContent_clean drawContent_keeps setValue_ok setValue_clean
  setValue_keeps value_ok value_clean value_keeps renderError_keeps updateValue_done_keeps
  updateValue_fail_keeps updateValue_keeps userInput_keeps parseDone_keeps parseFail_keeps
  formatDone_keeps formatFail_keeps : moreinv.

Lemma keeps_initial t s : keeps t s -> v_initial t = v_initial s.
Proof. intros [H _]; exact H. Qed.

Lemma keeps_dispatched t s : keeps t s -> v_dispatched t = v_dispatched s.
Proof. intros [_ H]; exact H. Qed.

(** Fields [drawContent] leaves alone, as rewrite rules. *)
Section DrawFields.
Variable new_expert : nat -> Expert.

Lemma drawContent_value x : v_value (drawContent new_expert x) = v_value x.
Proof. apply (drawContent_frame new_expert x). Qed.
Lemma drawContent_formatted x : v_formatted (drawContent new_expert x) = v_formatted x.
Proof. apply (drawContent_frame new_expert x). Qed.
Lemma drawContent_edit x : v_edit (drawContent new_expert x) = v_edit x.
Proof. apply (drawContent_frame new_expert x). Qed.
Lemma drawContent_timer x : v_timer (drawContent new_expert x) = v_timer x.
Proof. apply (drawContent_frame new_expert x). Qed.
Lemma drawContent_dispatched x : v_dispatched (drawContent new_expert x) = v_dispatched x.
Proof. apply (drawContent_frame new_expert x). Qed.
Lemma drawContent_lastUpdate x : v_lastUpdate (drawContent new_expert x) = v_lastUpdate x.
Proof. apply (drawContent_frame new_expert x). Qed.
Lemma drawContent_now x : v_now (drawContent new_expert x) = v_now x.
Proof. apply (drawContent_frame new_expert x). Qed.
Lemma drawContent_initial x : v_initial (drawContent new_expert x) = v_initial x.
Proof. apply (drawContent_frame new_expert x). Qed.
Lemma drawContent_disabled x : v_disabled (drawContent new_expert x) = v_disabled x.
Proof.
  unfold drawContent, drawContent_then, updateExpert, drawStaticContent; case_matches; reflexivity.
Qed.

End DrawFields.

Create Rewrite HintDb drawrw.
#[local] Hint Rewrite drawContent_value drawContent_formatted drawContent_edit drawContent_timer
  drawContent_dispatched drawContent_lastUpdate drawContent_now drawContent_initial
  drawContent_disabled : drawrw.

Section Extras.
Variable ctor_of : option DataValue -> nat.
Variable new_expert : nat -> Expert.

Lemma setValue_clock x s :
  v_timer (setValue ctor_of new_expert x s) = v_timer s
  /\ v_lastUpdate (setValue ctor_of new_expert x s) = v_lastUpdate s
  /\ v_now (setValue ctor_of new_expert x s) = v_now s
  /\ v_dispatched (setValue ctor_of new_expert x s) = v_dispatched s
  /\ v_edit (setValue ctor_of new_expert x s) = v_edit s.
Proof.
  unfold setValue, updateExpertConstructor, draw; case_matches; simpl;
    autorewrite with drawrw; simpl; auto.
Qed.

Lemma value_clock x s :
  v_timer (outcome_state (value ctor_of new_expert x s)) = v_timer s
  /\ v_lastUpdate (outcome_state (value ctor_of new_expert x s)) = v_lastUpdate s
  /\ v_now (outcome_state (value ctor_of new_expert x s)) = v_now s
  /\ v_dispatched (outcome_state (value ctor_of new_expert x s)) = v_dispatched s.
Proof.
  unfold value; destruct x; simpl; auto;
    destruct (setValue_clock None s) as (? & ? & ? & ? & _) || idtac;
    try match goal with |- context [setValue _ _ ?y s] =>
      destruct (setValue_clock y s) as (? & ? & ? & ? & _); auto end.
Qed.

Lemma stopEditing_clock b s :
  v_timer (stopEditing ctor_of new_expert b s) = v_timer s
  /\ v_lastUpdate (stopEditing ctor_of new_expert b s) = v_lastUpdate s
  /\ v_now (stopEditing ctor_of new_expert b s) = v_now s
  /\ v_dispatched (stopEditing ctor_of new_expert b s) = v_dispatched s.
Proof.
  unfold stopEditing; destruct (v_edit s); simpl; [|auto].
  unfold draw; autorewrite with drawrw.
  destruct (value_clock (js_of_value (initialValue s)) s) as (A & B & C & D).
  unfold detach_value_node, destroyExpert; destruct b; case_matches; simpl; auto.
Qed.

(** In every reachable state, a widget in static mode holds no expert and
    no rollback value: [stopEditing] destroys the expert and clears
    [_initialValue], and an expert is only created by [drawContent] in
    edit mode. *)
Theorem static_mode_holds_no_expert (s : View) :
  reachable ctor_of new_expert s -> v_edit s = false -> v_expert s = None /\ v_initial s = None.
Proof. intros Hr; exact (reachable_clean ctor_of new_expert s Hr). Qed.

(** [focus()] and [blur()] are forwarded exactly when the widget holds an
    expert: in a reachable state the proxy's edit-mode check never filters
    a call, and in static mode nothing is forwarded. *)
Theorem expertProxy_forwards_iff_expert (s : View) :
  reachable ctor_of new_expert s ->
  expertProxy s = v_expert s /\ (v_edit s = false -> expertProxy s = None).
Proof.
  intros Hr; pose proof (reachable_clean ctor_of new_expert s Hr) as Hc.
  unfold expertProxy; destruct (v_expert s) as [e|] eqn:E.
  - destruct (v_edit s) eqn:Ed; [split; [reflexivity | discriminate]|].
    destruct (Hc Ed); congruence.
  - split; [reflexivity | intros _; reflexivity].
Qed.

(** While the widget stays in edit mode, no operation or callback changes
    the rollback value [_initialValue]. *)
Theorem rollback_fixed_in_edit_mode (ev : Event) (s : View) :
  v_edit s = true -> v_edit (step ctor_of new_expert ev s) = true ->
  v_initial (step ctor_of new_expert ev s) = v_initial s.
Proof.
  intros E1 E2; destruct ev; simpl in *.
  - unfold startEditing; rewrite E1; reflexivity.
  - rewrite stopEditing_edit in E2; discriminate.
  - unfold cancelEditing in E2; rewrite stopEditing_edit in E2; discriminate.
  - apply keeps_initial; eauto with moreinv.
  - unfold setDisabled, draw; destruct (Bool.eqb (v_disabled s) b); [reflexivity|].
    apply keeps_initial; eauto with moreinv.
  - apply keeps_initial; eauto with moreinv.
  - apply keeps_initial; eauto with moreinv.
  - unfold tick, fireParseTimer; case_matches; reflexivity.
  - apply keeps_initial; eauto with moreinv.
  - apply keeps_initial; eauto with moreinv.
  - apply keeps_initial; eauto with moreinv.
  - apply keeps_initial; eauto with moreinv.
Qed.

(** Leaving edit mode does not stop a pending parse: after
    [cancelEditing] the parse timer still fires and sends its raw value to
    the parser, and the parser's answer then becomes the widget's value,
    in static mode. *)
Theorem cancel_keeps_pending_parse (s : View) (t : Timer) (n : nat) (d : DataValue) :
  reachable ctor_of new_expert s -> v_edit s = true -> v_timer s = Some t ->
  v_lastUpdate s = Some (tm_raw t) -> tm_due t <= v_now s + n ->
  let s1 := cancelEditing ctor_of new_expert s in
  let s2 := tick n s1 in
  let s3 := parseDone new_expert (v_next s1) (Some d) s2 in
  v_edit s1 = false /\ v_timer s1 = Some t
  /\ v_dispatched s2 = v_dispatched s ++ [tm_raw t]
  /\ v_edit s3 = false /\ v_value s3 = Some d.
Proof.
  intros Hr Ed Ht Hl Hn s1 s2 s3.
  destruct (stopEditing_clock true s) as (T1 & L1 & N1 & D1).
  fold (cancelEditing ctor_of new_expert s) in T1, L1, N1, D1; fold s1 in T1, L1, N1, D1.
  assert (E1 : v_edit s1 = false) by apply stopEditing_edit.
  assert (Hf : ids_fresh s1).
  { apply (reachable_fresh ctor_of new_expert).
    exact (reachable_step _ _ EvCancelEditing s Hr). }
  assert (E2 : s2 = fireParseTimer t (with_timer None (with_now (v_now s1 + n) s1))).
  { unfold s2, tick; simpl; rewrite T1, Ht.
    replace (tm_due t <=? v_now s1 + n) with true; [reflexivity|].
    symmetry; apply Nat.leb_le; lia. }
  assert (F2 : find_request (v_next s1) (v_pending s2) = Some (ReqParse (tm_raw t))).
  { rewrite E2; simpl; apply find_request_last; exact Hf. }
  assert (L2 : v_lastUpdate s2 = Some (tm_raw t)) by (rewrite E2; simpl; congruence).
  assert (Ed2 : v_edit s2 = false) by (rewrite E2; simpl; exact E1).
  refine (conj E1 (conj (eq_trans T1 Ht) (conj _ _))).
  - rewrite E2; simpl; rewrite D1; reflexivity.
  - unfold s3, parseDone; rewrite (take_request_found _ _ _ F2); simpl.
    rewrite L2, String.eqb_refl; simpl; auto.
Qed.

(** [value( null )] on a widget in static mode clears the value, the
    formatted value and the element's markup at once, without a formatter
    request. *)
Theorem value_null_clears_static (s : View) :
  v_edit s = false ->
  let s' := outcome_state (value ctor_of new_expert JsNull s) in
  v_value s' = None /\ v_formatted s' = None /\ v_content s' = ContentHtml None
  /\ v_pending s' = v_pending s /\ v_edit s' = false.
Proof.
  intros E s'; unfold s', value, setValue; simpl.
  destruct (v_value s); unfold draw, drawContent, drawStaticContent, updateExpertConstructor; simpl;
    rewrite E; simpl; auto.
Qed.

(** Setting a value that differs (by serialisation) from the current one
    on a widget in static mode: the element keeps its old markup until the
    formatter answers for that very value object; its answer is then
    shown as the static markup. *)
Theorem value_format_round_trip (s : View) (w : DataValue) (html : string) :
  reachable ctor_of new_expert s -> v_edit s = false ->
  match v_value s with Some cur => dv_json_eq w cur = false | None => True end ->
  let s1 := outcome_state (value ctor_of new_expert (JsDataValue w) s) in
  let s2 := formatDone new_expert (v_next s) html w s1 in
  v_value s1 = Some w /\ v_formatted s1 = v_formatted s /\ v_content s1 = v_content s
  /\ v_value s2 = Some w /\ v_formatted s2 = Some html /\ v_content s2 = ContentHtml (Some html).
Proof.
  intros Hr E Hj s1 s2.
  assert (Hf : ids_fresh s) by exact (reachable_fresh ctor_of new_expert s Hr).
  assert (E1 : s1 = add_pending (ReqFormat w) (updateExpertConstructor ctor_of (with_value (Some w) s))).
  { unfold s1, value, setValue; simpl; destruct (v_value s) as [cur|]; [rewrite Hj|]; reflexivity. }
  assert (F1 : find_request (v_next s) (v_pending s1) = Some (ReqFormat w)).
  { rewrite E1; simpl; apply find_request_last; exact Hf. }
  unfold s2; clearbody s1; subst s1.
  unfold formatDone; rewrite (take_request_found _ _ _ F1); unfold dv_same; rewrite Nat.eqb_refl; unfold draw.
  autorewrite with drawrw; simpl; repeat split; auto.
  unfold drawContent, drawStaticContent; simpl; rewrite E; reflexivity.
Qed.

End Extras.

Lemma drawContent_lastChars (new_expert : nat -> Expert) x :
  v_lastChars (drawContent new_expert x) = v_lastChars x.
Proof. apply (drawContent_frame new_expert x). Qed.

Lemma chars_get_notin (c : Chars) (k : string) : ~ In k (map fst c) -> chars_get c k = None.
Proof.
  induction c as [|[k' v] c IH]; simpl; intros Hn; [reflexivity|].
  destruct (String.eqb k k') eqn:E.
  - apply String.eqb_eq in E; subst; tauto.
  - apply IH; tauto.
Qed.

Lemma chars_get_in (c : Chars) (k : string) (v : string) : chars_get c k = Some v -> In k (map fst c).
Proof.
  induction c as [|[k' v'] c IH]; simpl; intros H; [discriminate|].
  destruct (String.eqb k k') eqn:E; [left; symmetry; apply String.eqb_eq; exact E|right; auto].
Qed.

Lemma ostr_eqb_true (a b : option string) : ostr_eqb a b = true <-> a = b.
Proof.
  destruct a as [x|], b as [y|]; simpl; split; intros H; try discriminate; try reflexivity.
  - apply String.eqb_eq in H; subst; reflexivity.
  - injection H as ->; apply String.eqb_refl.
Qed.

(** The key loops of the [change] notifier report no difference exactly
    when both characteristics objects give every key the same value. *)
Lemma chars_differ_false (nw last : Chars) :
  chars_differ nw last = false <-> forall k, chars_get nw k = chars_get last k.
Proof.
  unfold chars_differ; split.
  - intros H k.
    destruct (ostr_eqb (chars_get nw k) (chars_get last k)) eqn:Eq; [apply ostr_eqb_true; exact Eq|].
    exfalso.
    assert (Hin : In k (map fst nw ++ map fst last)).
    { apply in_or_app.
      destruct (chars_get nw k) as [x|] eqn:Ex; [left; eapply chars_get_in; exact Ex|].
      destruct (chars_get last k) as [y|] eqn:Ey; [right; eapply chars_get_in; exact Ey|].
      discriminate. }
    assert (Hx : existsb (fun k0 => negb (ostr_eqb (chars_get nw k0) (chars_get last k0)))
                   (map fst nw ++ map fst last) = true).
    { apply existsb_exists; exists k; split; [exact Hin|rewrite Eq; reflexivity]. }
    congruence.
  - intros H; apply Bool.not_true_iff_false; intros Hx.
    apply existsb_exists in Hx as (k & _ & Hk).
    rewrite H in Hk; destruct (chars_get last k) as [y|]; simpl in Hk;
      [rewrite String.eqb_refl in Hk|]; discriminate.
Qed.

Lemma setDisabled_flag (new_expert : nat -> Expert) b s :
  v_disabled (setDisabled new_expert b s) = b.
Proof.
  unfold setDisabled; destruct (Bool.eqb (v_disabled s) b) eqn:E.
  - apply Bool.eqb_prop in E; exact E.
  - unfold draw; rewrite drawContent_disabled; reflexivity.
Qed.

Lemma setDisabled_twice (new_expert : nat -> Expert) b s :
  setDisabled new_expert b (setDisabled new_expert b s) = setDisabled new_expert b s.
Proof.
  set (s1 := setDisabled new_expert b s).
  assert (H : v_disabled s1 = b) by apply setDisabled_flag.
  unfold setDisabled at 1; rewrite H; destruct b; reflexivity.
Qed.

Lemma fold_addExtension xs (e : ExpertBase.Expert) :
  fold_left (fun e x => ExpertBase.addExtension x e) xs e
  = ExpertBase.mkExpert (ExpertBase.viewPort e) (ExpertBase.viewStateRef e)
      (ExpertBase.viewNotifier e) (ExpertBase.messageProvider e) (ExpertBase.options e)
      (ExpertBase.extendable e ++ xs).
Proof.
  revert e; induction xs as [|x xs IH]; intros e; simpl.
  - rewrite app_nil_r; destruct e; reflexivity.
  - rewrite IH; simpl; rewrite <- app_assoc; reflexivity.
Qed.

Lemma run_ops_adds xs ops (e : ExpertBase.Expert) :
  ExpertBase.run_ops (map ExpertBase.OpAddExtension xs ++ ops) e
  = ExpertBase.run_ops ops (fold_left (fun e x => ExpertBase.addExtension x e) xs e).
Proof. revert e; induction xs as [|x xs IH]; intros e; simpl; [reflexivity | apply IH]. Qed.

Lemma run_ops_detached ops (e : ExpertBase.Expert) :
  ExpertBase.viewPort e = None -> snd (ExpertBase.run_ops ops e) = [].
Proof.
  revert e; induction ops as [|[x|] ops IH]; intros e He; simpl; [reflexivity| |].
  - apply IH; exact He.
  - unfold ExpertBase.destroy at 1; rewrite He.
    specialize (IH e He); destruct (ExpertBase.run_ops ops e); exact IH.
Qed.

Section Extras2.
Variable ctor_of : option DataValue -> nat.
Variable new_expert : nat -> Expert.

Lemma updateValue_lastChars s : v_lastChars (updateValue new_expert s) = v_lastChars s.
Proof.
  unfold updateValue, parseValue, updateValue_done; case_matches; simpl;
    try rewrite drawContent_lastChars; reflexivity.
Qed.

(** [_create]: the widget starts in edit mode exactly when
    [autoStartEditing] is set and it has no initial value, and its value is
    the [value] option either way. *)
Theorem create_mode_and_value (d : nat) (h : string) (x : option DataValue) (a : bool) :
  v_edit (create ctor_of new_expert d h x a) = a && match x with None => true | Some _ => false end
  /\ v_value (create ctor_of new_expert d h x a) = x.
Proof.
  unfold create, initValue, blank; simpl.
  destruct (String.eqb h ""); destruct x as [v|]; destruct a; simpl;
    unfold value, startEditing, isEmpty, setValue, draw, updateExpertConstructor; simpl;
    repeat (autorewrite with drawrw; simpl); auto.
Qed.

(** [_initValue]: markup already in the element is taken as the formatted
    value as it is, with no formatter request; an element without markup
    and a value gets a formatter request and keeps its empty markup until
    the formatter answers. *)
Theorem initValue_markup_or_format (d : nat) (h : string) (x : option DataValue) :
  let s := create ctor_of new_expert d h x false in
  (h <> ""%string ->
     v_value s = x /\ v_formatted s = Some h /\ v_content s = ContentHtml (Some h)
     /\ v_pending s = [])
  /\ (forall v, h = ""%string -> x = Some v ->
     v_value s = x /\ v_formatted s = None /\ v_content s = ContentHtml (Some h)
     /\ v_pending s = [(0, ReqFormat v)]).
Proof.
  intros s; split.
  - intros Hh; apply String.eqb_neq in Hh.
    unfold s, create, initValue, blank; simpl; rewrite Hh.
    unfold draw, drawContent, drawStaticContent, updateExpertConstructor; simpl; auto.
  - intros v -> ->; unfold s, create, initValue, blank; simpl.
    unfold value, setValue, updateExpertConstructor; simpl; auto.
Qed.

(** [disable()] and [enable()] set the flag [isDisabled()] reads; a second
    call changes nothing, and the value, formatted value, edit mode and
    rollback value stay as they were. *)
Theorem disable_enable_flag (s : View) :
  isDisabled (disable new_expert s) = true /\ isDisabled (enable new_expert s) = false
  /\ disable new_expert (disable new_expert s) = disable new_expert s
  /\ enable new_expert (enable new_expert s) = enable new_expert s
  /\ v_value (disable new_expert s) = v_value s /\ v_formatted (disable new_expert s) = v_formatted s
  /\ v_edit (disable new_expert s) = v_edit s /\ v_initial (disable new_expert s) = v_initial s
  /\ v_value (enable new_expert s) = v_value s /\ v_formatted (enable new_expert s) = v_formatted s
  /\ v_edit (enable new_expert s) = v_edit s /\ v_initial (enable new_expert s) = v_initial s.
Proof.
  unfold isDisabled, disable, enable.
  rewrite !setDisabled_flag, !setDisabled_twice.
  unfold setDisabled; destruct (Bool.eqb (v_disabled s) true), (Bool.eqb (v_disabled s) false);
    unfold draw; autorewrite with drawrw; simpl; repeat split.
Qed.

(** [startEditing] on a widget in static mode: without a value the expert
    is created at once over an empty text value; with a value it is created
    only when the formatter answers for the text value, over that text, and
    not at all if editing was stopped before the answer. *)
Theorem startEditing_expert_creation (s : View) :
  reachable ctor_of new_expert s -> v_edit s = false ->
  let s1 := startEditing new_expert s in
  match v_value s with
  | None => v_expert s1 = Some (new_expert (v_ctor s)) /\ v_text s1 = Some ""%string
  | Some d => forall txt,
      v_expert s1 = None
      /\ v_expert (formatDone new_expert (v_next s) txt d s1) = Some (new_expert (v_ctor s))
      /\ v_text (formatDone new_expert (v_next s) txt d s1) = Some txt
      /\ v_expert (formatDone new_expert (v_next s) txt d (stopEditing ctor_of new_expert false s1))
         = None
  end.
Proof.
  intros Hr E s1.
  destruct (reachable_clean ctor_of new_expert s Hr E) as [Hx _].
  pose proof (reachable_fresh ctor_of new_expert s Hr) as Hf.
  destruct (v_value s) as [d|] eqn:Hv.
  - intros txt.
    assert (S1 : s1 = add_pending (ReqTextValue d)
                        (with_content ContentValueNode (with_edit true (with_initial (Some d) s)))).
    { unfold s1, startEditing, draw, drawContent; rewrite E; simpl; rewrite Hv; reflexivity. }
    clearbody s1.
    assert (F1 : find_request (v_next s) (v_pending s1) = Some (ReqTextValue d)).
    { rewrite S1; simpl; apply find_request_last; exact Hf. }
    assert (E1 : v_edit s1 = true) by (rewrite S1; reflexivity).
    assert (X1 : v_expert s1 = None) by (rewrite S1; exact Hx).
    assert (C1 : v_ctor s1 = v_ctor s) by (rewrite S1; reflexivity).
    set (s2 := stopEditing ctor_of new_expert false s1).
    assert (P2 : v_pending s2 = v_pending s1 /\ v_edit s2 = false /\ v_expert s2 = None).
    { unfold s2, stopEditing; rewrite E1; simpl; rewrite X1.
      unfold detach_value_node, draw, drawContent, drawStaticContent; simpl.
      destruct (v_content s1); simpl; auto. }
    clearbody s2; destruct P2 as (P2 & E2 & X2).
    assert (F2 : find_request (v_next s) (v_pending s2) = Some (ReqTextValue d)) by (rewrite P2; exact F1).
    unfold formatDone; rewrite (take_request_found _ _ _ F1), (take_request_found _ _ _ F2).
    unfold dv_same; rewrite Nat.eqb_refl; unfold drawContent_then, updateExpert; simpl.
    rewrite E1, X1, E2, C1; simpl; auto.
  - unfold s1, startEditing, draw, drawContent, drawContent_then, updateExpert; rewrite E; simpl.
    rewrite Hv; simpl; rewrite Hx; auto.
Qed.

(** The [change] notifier ignores a notification when the expert's
    characteristics give every key the value they had at the last
    detected change and its raw value is the text value; any other
    notification is taken as a change and records the new
    characteristics. *)
Theorem notifyChange_detection (s : View) (e : Expert) :
  v_expert s = Some e ->
  let last := match v_lastChars s with Some c => c | None => [] end in
  ((forall k, chars_get (ex_chars e) k = chars_get last k) ->
   (exists r, ex_raw e = RawString r /\ v_text s = Some r) ->
   notifyChange new_expert s = s)
  /\ (~ ((forall k, chars_get (ex_chars e) k = chars_get last k)
         /\ (exists r, ex_raw e = RawString r /\ v_text s = Some r)) ->
      v_lastChars (notifyChange new_expert s) = Some (ex_chars e)).
Proof.
  intros He last; unfold notifyChange; rewrite He; fold last; split.
  - intros Hc (r & Hr & Ht).
    apply chars_differ_false in Hc; rewrite Hc, Hr, Ht; simpl; rewrite String.eqb_refl; reflexivity.
  - intros Hn.
    destruct (chars_differ (ex_chars e) last || text_differs (v_text s) (ex_raw e)) eqn:D.
    + rewrite updateValue_lastChars; reflexivity.
    + exfalso; apply Hn; apply Bool.orb_false_iff in D as [D1 D2]; split.
      * apply chars_differ_false; exact D1.
      * destruct (v_text s) as [x|], (ex_raw e) as [| |y]; simpl in D2; try discriminate.
        apply Bool.negb_false_iff, String.eqb_eq in D2; subst; exists y; auto.
Qed.

End Extras2.

(** [Expert.destroy]: for an expert built by its constructor, extended and
    then destroyed, each extension's [destroy] hook runs once, in the
    order the extensions were added, and the viewport is emptied once;
    whatever is called afterwards has no further effect. *)
Theorem expert_destroy_hooks_once (xs : list nat) (ops : list ExpertBase.Op)
    (n st nt o p : nat) :
  snd (ExpertBase.run_ops (map ExpertBase.OpAddExtension xs ++ ExpertBase.OpDestroy :: ops)
         (ExpertBase.construct n st nt o p))
  = map (fun x => ExpertBase.CallExtension x "destroy") xs ++ [ExpertBase.EmptyViewPort n].
Proof.
  rewrite run_ops_adds, fold_addExtension; simpl.
  pose proof (run_ops_detached ops
    (ExpertBase.mkExpert None None None None None xs) eq_refl) as H.
  destruct (ExpertBase.run_ops ops _) as [e2 fx2]; simpl in *; subst; rewrite app_nil_r; reflexivity.
Qed.

(** ** Instances of the claims' theorems at concrete inputs *)


Lemma debounce_dispatches_last_witness :
  burst_detected demo_expert ([("a"%string, ([] : Chars), 100)] ++ [("ab"%string, ([] : Chars), 0)]) demo_start = true
  /\ Forall (fun x => snd x < v_parseDelay demo_start)
            ([("a"%string, ([] : Chars), 100)] ++ [("ab"%string, ([] : Chars), 0)])
  /\ v_dispatched (tick (v_parseDelay demo_start)
                    (burst demo_expert ([("a"%string, ([] : Chars), 100)] ++ [("ab"%string, ([] : Chars), 0)]) demo_start))
     = v_dispatched demo_start ++ ["ab"%string].
Proof.
  assert (H1 : burst_detected demo_expert ([("a"%string, ([] : Chars), 100)] ++ [("ab"%string, ([] : Chars), 0)])
                 demo_start = true) by (vm_compute; reflexivity).
  assert (H2 : Forall (fun x => snd x < v_parseDelay demo_start)
                 ([("a"%string, ([] : Chars), 100)] ++ [("ab"%string, ([] : Chars), 0)])).
  { apply Forall_cons; [vm_compute; lia|].
    apply Forall_cons; [vm_compute; lia | apply Forall_nil]. }
  exact (conj H1 (conj H2 (proj2 (debounce_dispatches_last demo_expert [("a"%string, ([] : Chars), 100)]
                                    "ab"%string ([] : Chars) 0 demo_start H1 H2)))).
Defined.

Lemma start_then_cancel_witness :
  v_edit demo_static = false
  /\ v_value (cancelEditing demo_ctor demo_expert (startEditing demo_expert demo_static))
     = v_value demo_static.
Proof.
  assert (H : v_edit demo_static = false) by (vm_compute; reflexivity).
  exact (conj H (proj2 (proj1 (start_then_cancel demo_ctor demo_expert demo_static) H))).
Defined.

Lemma parse_failure_reported_witness :
  find_request 0 (v_pending demo_abs) = Some (ReqParse "a")
  /\ (forall M, M <> ""%string ->
        v_value (parseFail 0 (Some M) demo_abs) = None
        /\ forall e log, v_expert demo_abs = Some e -> ex_preview e = Some log ->
           v_expert (parseFail 0 (Some M) demo_abs) = Some (with_preview (log ++ [M]) e))
  /\ displayed_same (parseFail 0 None demo_abs) demo_abs
  /\ displayed_same (parseFail 0 (Some ""%string) demo_abs) demo_abs.
Proof.
  assert (H : find_request 0 (v_pending demo_abs) = Some (ReqParse "a")) by (vm_compute; reflexivity).
  exact (conj H (parse_failure_reported demo_expert demo_abs 0 (ReqParse "a") H)).
Defined.

Lemma one_surface_shown_witness :
  reachable demo_ctor demo_expert demo_abs
  /\ xorb (static_shown demo_abs) (editable_shown demo_abs) = true
  /\ editable_shown demo_abs = v_edit demo_abs.
Proof.
  assert (H : reachable demo_ctor demo_expert demo_abs) by (apply reachable_run; constructor).
  exact (conj H (one_surface_shown demo_ctor demo_expert demo_abs H)).
Defined.

Lemma parseValue_structured_raw_synchronous_witness :
  v_expert demo_dv_input = Some demo_dv_expert
  /\ structured_raw (ex_raw demo_dv_expert) = Some (Some dv_a)
  /\ v_value (updateValue demo_expert demo_dv_input) = Some dv_a.
Proof.
  assert (H1 : v_expert demo_dv_input = Some demo_dv_expert) by (vm_compute; reflexivity).
  assert (H2 : structured_raw (ex_raw demo_dv_expert) = Some (Some dv_a)) by reflexivity.
  destruct (parseValue_structured_raw_synchronous demo_expert demo_dv_input demo_dv_expert
              (Some dv_a) H1 H2) as (_ & _ & _ & _ & V & _).
  exact (conj H1 (conj H2 V)).
Defined.

Lemma stopEditing_commits_parsed_value_witness :
  reachable demo_ctor demo_expert demo_abs
  /\ find_request 2 (v_pending demo_abs) = Some (ReqParse "a")
  /\ v_lastUpdate demo_abs = Some "a"%string
  /\ initialValue (stopEditing demo_ctor demo_expert false
        (formatDone demo_expert (v_next demo_abs) "b" dv_b
           (parseDone demo_expert 2 (Some dv_b) demo_abs))) = Some dv_b.
Proof.
  assert (H1 : reachable demo_ctor demo_expert demo_abs) by (apply reachable_run; constructor).
  assert (H2 : find_request 2 (v_pending demo_abs) = Some (ReqParse "a")) by (vm_compute; reflexivity).
  assert (H3 : v_lastUpdate demo_abs = Some "a"%string) by (vm_compute; reflexivity).
  destruct (stopEditing_commits_parsed_value demo_ctor demo_expert demo_abs 2 "a" dv_b "b" H1 H2 H3)
    as (_ & _ & _ & _ & I).
  exact (conj H1 (conj H2 (conj H3 I))).
Defined.

Lemma value_same_serialisation_noop_witness :
  v_value demo_static = Some dv_a /\ dv_json_eq dv_a' dv_a = true
  /\ value demo_ctor demo_expert (JsDataValue dv_a') demo_static = Returned JsUndefined demo_static.
Proof.
  assert (H1 : v_value demo_static = Some dv_a) by (vm_compute; reflexivity).
  assert (H2 : dv_json_eq dv_a' dv_a = true) by reflexivity.
  exact (conj H1 (conj H2 (value_same_serialisation_noop demo_ctor demo_expert demo_static dv_a dv_a' H1 H2))).
Defined.

Lemma expert_destroy_idempotent_witness :
  ExpertBase.reachable demo_expert_obj
  /\ ExpertBase.refs_null (fst (ExpertBase.destroy demo_expert_obj))
  /\ ExpertBase.destroy (fst (ExpertBase.destroy demo_expert_obj))
     = (fst (ExpertBase.destroy demo_expert_obj), []).
Proof.
  assert (H : ExpertBase.reachable demo_expert_obj) by (repeat constructor).
  exact (conj H (expert_destroy_idempotent demo_expert_obj H)).
Defined.

(** ** Instances of the further properties at concrete inputs *)

Lemma static_mode_holds_no_expert_witness :
  reachable demo_ctor demo_expert demo_left /\ v_edit demo_left = false
  /\ v_expert demo_left = None /\ v_initial demo_left = None.
Proof.
  assert (H : reachable demo_ctor demo_expert demo_left) by (apply reachable_run; constructor).
  assert (E : v_edit demo_left = false) by (vm_compute; reflexivity).
  exact (conj H (conj E (static_mode_holds_no_expert demo_ctor demo_expert demo_left H E))).
Defined.

Lemma expertProxy_forwards_iff_expert_witness :
  reachable demo_ctor demo_expert demo_abs /\ expertProxy demo_abs = v_expert demo_abs.
Proof.
  assert (H : reachable demo_ctor demo_expert demo_abs) by (apply reachable_run; constructor).
  exact (conj H (proj1 (expertProxy_forwards_iff_expert demo_ctor demo_expert demo_abs H))).
Defined.

Lemma rollback_fixed_in_edit_mode_witness :
  v_initial (step demo_ctor demo_expert (EvInput (RawString "x") []) demo_start)
  = v_initial demo_start.
Proof.
  apply (rollback_fixed_in_edit_mode demo_ctor demo_expert (EvInput (RawString "x") []) demo_start);
    vm_compute; reflexivity.
Defined.

Lemma cancel_keeps_pending_parse_witness :
  v_value (parseDone demo_expert (v_next (cancelEditing demo_ctor demo_expert demo_typed)) (Some dv_b)
             (tick 300 (cancelEditing demo_ctor demo_expert demo_typed)))
  = Some dv_b.
Proof.
  assert (H : reachable demo_ctor demo_expert demo_typed) by (apply reachable_run; constructor).
  assert (E : v_edit demo_typed = true) by (vm_compute; reflexivity).
  assert (T : v_timer demo_typed = Some (mkTimer 300 "x")) by (vm_compute; reflexivity).
  assert (L : v_lastUpdate demo_typed = Some (tm_raw (mkTimer 300 "x"))) by (vm_compute; reflexivity).
  assert (D : tm_due (mkTimer 300 "x") <= v_now demo_typed + 300) by (vm_compute; lia).
  exact (proj2 (proj2 (proj2 (proj2
    (cancel_keeps_pending_parse demo_ctor demo_expert demo_typed (mkTimer 300 "x") 300 dv_b H E T L D))))).
Defined.

Lemma value_null_clears_static_witness :
  v_content (outcome_state (value demo_ctor demo_expert JsNull demo_static)) = ContentHtml None.
Proof.
  assert (E : v_edit demo_static = false) by (vm_compute; reflexivity).
  exact (proj1 (proj2 (proj2 (value_null_clears_static demo_ctor demo_expert demo_static E)))).
Defined.

Lemma value_format_round_trip_witness :
  v_content (formatDone demo_expert (v_next demo_static) "b" dv_b
               (outcome_state (value demo_ctor demo_expert (JsDataValue dv_b) demo_static)))
  = ContentHtml (Some "b"%string).
Proof.
  assert (H : reachable demo_ctor demo_expert demo_static) by constructor.
  assert (E : v_edit demo_static = false) by (vm_compute; reflexivity).
  assert (J : match v_value demo_static with Some cur => dv_json_eq dv_b cur = false | None => True end)
    by (vm_compute; reflexivity).
  exact (proj2 (proj2 (proj2 (proj2 (proj2
    (value_format_round_trip demo_ctor demo_expert demo_static dv_b "b" H E J)))))).
Defined.

Lemma initValue_markup_or_format_witness :
  v_formatted (create demo_ctor demo_expert 300 "a" (Some dv_a) false) = Some "a"%string
  /\ v_pending (create demo_ctor demo_expert 300 "" (Some dv_a) false) = [(0, ReqFormat dv_a)].
Proof.
  assert (N : "a"%string <> ""%string) by discriminate.
  split.
  - exact (proj1 (proj2 (proj1 (initValue_markup_or_format demo_ctor demo_expert 300 "a" (Some dv_a)) N))).
  - exact (proj2 (proj2 (proj2 (proj2 (initValue_markup_or_format demo_ctor demo_expert 300 "" (Some dv_a))
             dv_a eq_refl eq_refl)))).
Defined.

Lemma startEditing_expert_creation_witness :
  v_expert (formatDone demo_expert (v_next demo_static) "a" dv_a (startEditing demo_expert demo_static))
  = Some (demo_expert (v_ctor demo_static)).
Proof.
  assert (H : reachable demo_ctor demo_expert demo_static) by constructor.
  assert (E : v_edit demo_static = false) by (vm_compute; reflexivity).
  assert (V : v_value demo_static = Some dv_a) by (vm_compute; reflexivity).
  pose proof (startEditing_expert_creation demo_ctor demo_expert demo_static H E) as W.
  cbv zeta in W; rewrite V in W.
  exact (proj1 (proj2 (W "a"%string))).
Defined.

Lemma notifyChange_detection_witness :
  notifyChange demo_expert demo_start = demo_start.
Proof.
  assert (H : v_expert demo_start = Some (demo_expert 1)) by (vm_compute; reflexivity).
  apply (proj1 (notifyChange_detection demo_expert demo_start (demo_expert 1) H)).
  - intros k; vm_compute; reflexivity.
  - exists ""%string; split; vm_compute; reflexivity.
Defined.
